(** * Cardano scanner: change detection, event classification, webhook delivery

    A shallow embedding of the monitoring core of the scanner:
    - [blockchain/blockfrost.ts]  ([getTransactionInfo]),
    - [blockchain/monitor.ts]     (the dedup cache [lastProcessedTxs], the
      address and contract classifiers, [createTransactionEvent]),
    - [webhooks/processor.ts]     ([processEvent], [queueWebhookDelivery],
      [deliverWebhook], [processWebhookQueue]).

    Conventions.  Rows of a table are the values of a [gmap] keyed by the
    primary key [id] (a UUID, kept as a string); [uuid_generate_v4()] is a
    key that is fresh for the table.  Timestamps are milliseconds since the
    epoch, in [Z]; every operation receives the current time [now] from its
    caller.  JavaScript numbers are exact integers or rationals here (all the
    values involved are far below 2^53); [NaN] is [None].  A string is the
    sequence of the bytes of its UTF-8 encoding.  A failure of the
    provider or of the database ends a scan or a call through its [catch];
    of these only the outer [catch] of [deliverWebhook] is modelled
    ([Thrown], [catchError]). *)

From Stdlib Require Import ZArith QArith Qpower Lia Ascii String.
From stdpp Require Import base option list strings pretty gmap sets fin_sets relations.
Close Scope Q_scope.
Local Open Scope Z_scope.
Set Warnings "-clear-no-such-hyp".
Local Open Scope string_scope.
Local Open Scope list_scope.

(** ** Data model ([types/index.ts], [db/schema.sql]) *)

Inductive WebhookDeliveryStatus :=
  | PENDING | IN_PROGRESS | SUCCEEDED | FAILED | RETRYING | MAX_RETRIES_EXCEEDED.

#[global] Instance WebhookDeliveryStatus_eq_dec : EqDecision WebhookDeliveryStatus.
Proof. solve_decision. Defined.

Inductive EventType :=
  | TRANSACTION_RECEIVED | TRANSACTION_SENT | ADA_RECEIVED | ADA_SENT
  | TOKEN_RECEIVED | TOKEN_SENT | TOKEN_MINTED | TOKEN_BURNED
  | NFT_RECEIVED | NFT_SENT | CONTRACT_EXECUTED | STAKE_DELEGATED
  | REWARD_RECEIVED | GOVERNANCE_VOTE | DEFI_INTERACTION | DEX_INTERACTION
  | COLLATERAL_LOCKED | COLLATERAL_RELEASED | ORACLE_UPDATE | METADATA_ADDED
  | MULTI_SIG_TRANSACTION | TIME_LOCKED_EXECUTION.

#[global] Instance EventType_eq_dec : EqDecision EventType.
Proof. solve_decision. Defined.

(** The string value of each member of the [EventType] enum; this is what is
    stored in [transaction_events.event_type] and what a webhook lists in
    [event_types]. *)
Definition EventType_value (t : EventType) : string :=
  match t with
  | TRANSACTION_RECEIVED => "transaction_received"
  | TRANSACTION_SENT => "transaction_sent"
  | ADA_RECEIVED => "ada_received"
  | ADA_SENT => "ada_sent"
  | TOKEN_RECEIVED => "token_received"
  | TOKEN_SENT => "token_sent"
  | TOKEN_MINTED => "token_minted"
  | TOKEN_BURNED => "token_burned"
  | NFT_RECEIVED => "nft_received"
  | NFT_SENT => "nft_sent"
  | CONTRACT_EXECUTED => "contract_executed"
  | STAKE_DELEGATED => "stake_delegated"
  | REWARD_RECEIVED => "reward_received"
  | GOVERNANCE_VOTE => "governance_vote"
  | DEFI_INTERACTION => "defi_interaction"
  | DEX_INTERACTION => "dex_interaction"
  | COLLATERAL_LOCKED => "collateral_locked"
  | COLLATERAL_RELEASED => "collateral_released"
  | ORACLE_UPDATE => "oracle_update"
  | METADATA_ADDED => "metadata_added"
  | MULTI_SIG_TRANSACTION => "multi_sig_transaction"
  | TIME_LOCKED_EXECUTION => "time_locked_execution"
  end.

(** JSON values are kept as their text. *)
Abbreviation Json := string (only parsing).

(** [{unit, quantity}]: one asset amount of a transaction entry. *)
Record Amount := { unit_ : string; quantity : string }.

(** One input or output entry of a listed transaction.  [entry_address] is
    [None] when the field is missing; [entry_amount] is [None] when
    [amount] is missing or falsy, and an element of the list is [None] when
    it is [null]. *)
Record TxEntry := {
  entry_address : option string;
  entry_amount : option (list (option Amount))
}.

(** An element of the list returned by [getAddressTransactions] (typed
    [any] in the source).  [inputs]/[outputs] are [None] when the property
    is missing, [null] or not an array. *)
Record ListedTx := {
  tx_hash : string;
  inputs : option (list TxEntry);
  outputs : option (list TxEntry)
}.

(** What [blockfrostClient.txs] answers.  The fields that the monitor never
    reads (block, slot, fees, ...) are carried along unchanged by the source
    and are left out.  [bf_asset_mint_count] is the [asset_mint_count]
    property of the provider's answer, [None] when the answer has none. *)
Record BlockfrostTransactionResponse := {
  bf_hash : string;
  bf_block_height : Z;
  bf_block_time : Z;
  bf_asset_mint_count : option Z
}.

(** One element of what [blockfrostClient.txsMetadata] answers. *)
Record MetadataItem := { label : string; json_metadata : Json }.

(** [CardanoTransaction]; [metadata] is an optional property
    ([metadata?: Record<string, any>]). *)
Record CardanoTransaction := {
  hash : string;
  block_height : Z;
  block_time : Z;
  asset_mint_count : Z;
  metadata : option (gmap string Json)
}.

Record MonitoredAddress := { ma_id : string; ma_address : string }.
Record MonitoredContract := { mc_id : string; mc_address : string }.

(** [event_data]: the transaction detail with the watched entity. *)
Inductive EventData :=
  | AddressData (tx : CardanoTransaction) (address : string)
  | ContractData (tx : CardanoTransaction) (contract : string).

(** A row of [transaction_events] (alias [te] in the source's queries). *)
Record TransactionEvent := {
  te_tx_hash : string;
  te_block_height : option Z;
  te_block_time : option Z;
  te_event_type : string;
  te_event_data : EventData;
  te_address_id : option string;
  te_contract_id : option string;
  te_processed : bool;
  te_created_at : Z
}.

(** A row of [webhooks] (alias [w]). *)
Record Webhook := {
  w_name : string;
  w_url : string;
  w_secret : option string;
  w_event_types : list string;
  w_headers : option (list (string * string));
  w_is_active : bool
}.

(** A row of [webhook_deliveries] (alias [wd]). *)
Record WebhookDelivery := {
  wd_webhook_id : string;
  wd_event_id : string;
  wd_attempt_count : Z;
  wd_status : WebhookDeliveryStatus;
  wd_status_code : option Z;
  wd_response_body : option string;
  wd_next_retry_at : option Z;
  wd_created_at : Z;
  wd_completed_at : option Z
}.

(** ** The upstream client ([blockchain/blockfrost.ts]) *)

Module Blockfrost.

(** The remote provider.  [txsMetadata] is [None] when the call throws (the
    source catches that and keeps the default). *)
Record Client := {
  addressesTransactions : string → list ListedTx;
  txs : string → BlockfrostTransactionResponse;
  txsMetadata : string → option (list MetadataItem)
}.

(** [metadata.reduce((acc, item) => { acc[item.label] = item.json_metadata;
    return acc; }, {})], for the labels whose assignment creates or
    replaces a key of [acc]: every label but ["__proto__"], which an object
    literal inherits as a setter. *)
Definition reduceMetadata (items : list MetadataItem) : gmap string Json :=
  foldl (λ acc item, <[label item := json_metadata item]> acc) ∅ items.

(** [getTransactionInfo]: the spread [...txInfo] comes first in the object
    literal, so the two properties written after it, [asset_mint_count: 0]
    and [metadata: {}], replace whatever the answer carried. *)
Definition getTransactionInfo (client : Client) (txHash : string)
    : CardanoTransaction :=
  let txInfo := txs client txHash in
  let transaction :=
    {| hash := bf_hash txInfo;
       block_height := bf_block_height txInfo;
       block_time := bf_block_time txInfo;
       asset_mint_count := 0;
       metadata := Some ∅ |} in
  match txsMetadata client txHash with
  | Some (item :: items) =>
      {| hash := hash transaction;
         block_height := block_height transaction;
         block_time := block_time transaction;
         asset_mint_count := asset_mint_count transaction;
         metadata := Some (reduceMetadata (item :: items)) |}
  | Some [] | None => transaction
  end.

End Blockfrost.

(** ** JavaScript helpers *)

(** A number that may be [NaN] ([None]). *)
Abbreviation JsNumber := (option Z).

(** The white space that [parseInt] skips ([StrWhiteSpaceChar]: the white
    space and the line terminators of ECMAScript), by the bytes of the
    character:
    - one byte: TAB, LF, VT, FF, CR (9 to 13) and SP (32);
    - two bytes: U+00A0 (194 160);
    - three bytes: U+1680 (225 154 128), U+2000 to U+200A (226 128 128
      to 226 128 138), U+2028 and U+2029 (226 128 168, 226 128 169), U+202F
      (226 128 175), U+205F (226 129 159), U+3000 (227 128 128) and U+FEFF
      (239 187 191). *)
Definition isWhiteSpace (a : ascii) : bool :=
  let n := nat_of_ascii a in
  bool_decide (n = 32 ∨ (9 ≤ n ∧ n ≤ 13))%nat.

Definition isWhiteSpace2 (a b : ascii) : bool :=
  bool_decide (nat_of_ascii a = 194 ∧ nat_of_ascii b = 160)%nat.

Definition isWhiteSpace3 (a b c : ascii) : bool :=
  let x := nat_of_ascii a in
  let y := nat_of_ascii b in
  let z := nat_of_ascii c in
  bool_decide ((x = 225 ∧ y = 154 ∧ z = 128)
               ∨ (x = 226 ∧ y = 128
                  ∧ ((128 ≤ z ∧ z ≤ 138) ∨ z = 168 ∨ z = 169 ∨ z = 175))
               ∨ (x = 226 ∧ y = 129 ∧ z = 159)
               ∨ (x = 227 ∧ y = 128 ∧ z = 128)
               ∨ (x = 239 ∧ y = 187 ∧ z = 191))%nat.

Definition digitValue (a : ascii) : option Z :=
  let n := nat_of_ascii a in
  if bool_decide (48 ≤ n ∧ n ≤ 57)%nat then Some (Z.of_nat (n - 48)) else None.

Fixpoint trimStart (s : string) : string :=
  match s with
  | String a s1 =>
      if isWhiteSpace a then trimStart s1
      else
        match s1 with
        | String b s2 =>
            if isWhiteSpace2 a b then trimStart s2
            else
              match s2 with
              | String c s3 => if isWhiteSpace3 a b c then trimStart s3 else s
              | EmptyString => s
              end
        | EmptyString => s
        end
  | EmptyString => EmptyString
  end.

(** The longest prefix of decimal digits, read as a number; [acc] is the
    value read so far ([None] before the first digit). *)
Fixpoint parseDigits (s : string) (acc : option Z) : option Z :=
  match s with
  | String a s' =>
      match digitValue a with
      | Some d => parseDigits s' (Some (10 * default 0 acc + d))
      | None => acc
      end
  | EmptyString => acc
  end.

(** [parseInt(s, 10)]: leading white space, an optional sign, then digits;
    [NaN] when no digit follows. *)
Definition parseInt (s : string) : JsNumber :=
  match trimStart s with
  | String "-"%char s' => Z.opp <$> parseDigits s' None
  | String "+"%char s' => parseDigits s' None
  | s' => parseDigits s' None
  end.

(** [x + y] on numbers: [NaN] is absorbing. *)
Definition jsAdd (x y : JsNumber) : JsNumber :=
  match x, y with
  | Some a, Some b => Some (a + b)
  | _, _ => None
  end.

(** [x > 0]: false on [NaN]. *)
Definition jsPositive (x : JsNumber) : bool :=
  match x with
  | Some a => bool_decide (0 < a)
  | None => false
  end.

(** ** The persistence layer ([db/index.ts])

    Every call of [query] is recorded in the journal of the database, in the
    order of execution. *)

Inductive Query :=
  | UpdateLastChecked (id : string)
  | InsertTransactionEvent (id : string)
  | SelectTransactionEvent (id : string)
  | UpdateTransactionEventProcessed (id : string)
  | SelectMatchingWebhooks (event_type : string)
  | InsertWebhookDelivery (id : string)
  | SelectWebhookDelivery (id : string)
  | UpdateWebhookDelivery (id : string) (status : WebhookDeliveryStatus)
  | SelectDueWebhookDeliveries.

Record Db := {
  transaction_events : gmap string TransactionEvent;
  webhooks : gmap string Webhook;
  webhook_deliveries : gmap string WebhookDelivery;
  journal : list Query
}.

Definition set_transaction_events
    (f : gmap string TransactionEvent → gmap string TransactionEvent) (db : Db) : Db :=
  {| transaction_events := f (transaction_events db);
     webhooks := webhooks db;
     webhook_deliveries := webhook_deliveries db;
     journal := journal db |}.

Definition set_webhook_deliveries
    (f : gmap string WebhookDelivery → gmap string WebhookDelivery) (db : Db) : Db :=
  {| transaction_events := transaction_events db;
     webhooks := webhooks db;
     webhook_deliveries := f (webhook_deliveries db);
     journal := journal db |}.

Definition logged (q : Query) (db : Db) : Db :=
  {| transaction_events := transaction_events db;
     webhooks := webhooks db;
     webhook_deliveries := webhook_deliveries db;
     journal := journal db ++ [q] |}.

(** Code that talks to the database: a state monad over [Db]. *)
Definition DB (A : Type) : Type := Db → A * Db.

#[global] Instance DB_ret : MRet DB := λ A a db, (a, db).
#[global] Instance DB_bind : MBind DB := λ A B f m db, f (m db).1 (m db).2.

(** A statement without a modelled effect on the three tables. *)
Definition query (q : Query) : DB unit := λ db, (tt, logged q db).

(** The argument of [createTransactionEvent]
    ([Partial<TransactionEvent>]; its [processed] is not read). *)
Record NewTransactionEvent := {
  ne_tx_hash : string;
  ne_block_height : option Z;
  ne_block_time : option Z;
  ne_event_type : EventType;
  ne_event_data : EventData;
  ne_address_id : option string;
  ne_contract_id : option string
}.

(** ** The change detector and the classifier ([blockchain/monitor.ts]) *)

Module Monitor.

(** [lastProcessedTxs]: two key sets and the size limit. *)
Record LastProcessedTxs := {
  addresses : gset string;
  contracts : gset string;
  maxSize : nat
}.

(** The cache as the module creates it. *)
Definition lastProcessedTxs : LastProcessedTxs :=
  {| addresses := ∅; contracts := ∅; maxSize := 1000 |}.

(** [reset]: both sets are cleared. *)
Definition reset (c : LastProcessedTxs) : LastProcessedTxs :=
  {| addresses := ∅; contracts := ∅; maxSize := maxSize c |}.

Definition addAddressKey (txKey : string) (c : LastProcessedTxs) : LastProcessedTxs :=
  {| addresses := {[txKey]} ∪ addresses c;
     contracts := contracts c; maxSize := maxSize c |}.

Definition addContractKey (txKey : string) (c : LastProcessedTxs) : LastProcessedTxs :=
  {| addresses := addresses c;
     contracts := {[txKey]} ∪ contracts c; maxSize := maxSize c |}.

(** [`${id}:${tx_hash}`] *)
Definition txKey (id txHash : string) : string := id +:+ ":" +:+ txHash.

(** The head of the loop body of [checkAddressTransactions]: [None] is the
    [continue] (the transaction is skipped), [Some c'] is the cache with
    which the body goes on to fetch and classify the transaction. *)
Definition admitAddressTx (key : string) (c : LastProcessedTxs)
    : option LastProcessedTxs :=
  if bool_decide (key ∈ addresses c) then None
  else
    let c1 := addAddressKey key c in
    if bool_decide (maxSize c1 < size (addresses c1))%nat
    then Some (addAddressKey key (reset c1))
    else Some c1.

(** The same for [checkContractTransactions]. *)
Definition admitContractTx (key : string) (c : LastProcessedTxs)
    : option LastProcessedTxs :=
  if bool_decide (key ∈ contracts c) then None
  else
    let c1 := addContractKey key c in
    if bool_decide (maxSize c1 < size (contracts c1))%nat
    then Some (addContractKey key (reset c1))
    else Some c1.



(** *** Classification for a watched address *)

Definition entryAt (address : string) (e : TxEntry) : bool :=
  bool_decide (entry_address e = Some address).

(** [entries.some(e => e.address === address)], [false] without a list. *)
Definition isMember (address : string) (entries : option (list TxEntry)) : bool :=
  match entries with
  | Some l => existsb (entryAt address) l
  | None => false
  end.

(** [.filter(e => e.address === address).flatMap(e => e.amount || [])] *)
Definition amountsAt (address : string) (l : list TxEntry) : list (option Amount) :=
  flat_map (λ e, default [] (entry_amount e)) (filter (λ e, entryAt address e = true) l).

Definition isLovelace (a : option Amount) : bool :=
  match a with
  | Some a => bool_decide (unit_ a = "lovelace")
  | None => false
  end.

Definition isToken (a : option Amount) : bool :=
  match a with
  | Some a => bool_decide (unit_ a ≠ "lovelace")
  | None => false
  end.

Definition quantityOf (a : option Amount) : string :=
  match a with Some a => quantity a | None => "" end.

(** [adaReceived] / [adaSent] *)
Definition lovelaceSum (address : string) (entries : option (list TxEntry)) : JsNumber :=
  match entries with
  | Some l =>
      foldl (λ sum amount, jsAdd sum (parseInt (quantityOf amount))) (Some 0)
        (List.filter isLovelace (amountsAt address l))
  | None => Some 0
  end.

(** [tokensReceived] / [tokensSent] *)
Definition tokensAt (address : string) (entries : option (list TxEntry))
    : list (option Amount) :=
  match entries with
  | Some l => List.filter isToken (amountsAt address l)
  | None => []
  end.

Definition hasNFTs (tokens : list (option Amount)) : bool :=
  existsb (λ token, bool_decide (quantityOf token = "1")) tokens.

(** The event types pushed for one transaction of a watched address, in
    the order of the pushes. *)
Definition addressEventTypes (address : string) (tx : ListedTx)
    (txInfo : CardanoTransaction) : list EventType :=
  let isReceiver := isMember address (outputs tx) in
  let isSender := isMember address (inputs tx) in
  (if isReceiver then
     [TRANSACTION_RECEIVED]
     ++ (if jsPositive (lovelaceSum address (outputs tx)) then [ADA_RECEIVED] else [])
     ++ (let tokensReceived := tokensAt address (outputs tx) in
         if bool_decide (0 < length tokensReceived)%nat then
           (if hasNFTs tokensReceived then [NFT_RECEIVED] else []) ++ [TOKEN_RECEIVED]
         else [])
   else [])
  ++ (if isSender then
     [TRANSACTION_SENT]
     ++ (if jsPositive (lovelaceSum address (inputs tx)) then [ADA_SENT] else [])
     ++ (let tokensSent := tokensAt address (inputs tx) in
         if bool_decide (0 < length tokensSent)%nat then
           (if hasNFTs tokensSent then [NFT_SENT] else []) ++ [TOKEN_SENT]
         else [])
   else [])
  ++ (match metadata txInfo with
      | Some _ => [METADATA_ADDED]      (* any object is truthy *)
      | None => []
      end).

(** The event types created for one transaction of a watched contract. *)
Definition contractEventTypes (txInfo : CardanoTransaction) : list EventType :=
  [CONTRACT_EXECUTED]
  ++ (if bool_decide (0 < asset_mint_count txInfo) then [TOKEN_MINTED] else []).

(** [createTransactionEvent]: the row is inserted with [processed = false];
    the call of [processEvent] that follows is not awaited, it is a step of
    its own in [System] below.  The result is the id of the new event. *)
Definition createTransactionEvent (eventData : NewTransactionEvent) (now : Z)
    : DB string :=
  λ db,
    let eventId := fresh (dom (transaction_events db)) in
    (eventId,
     logged (InsertTransactionEvent eventId)
       (set_transaction_events
          <[eventId :=
              {| te_tx_hash := ne_tx_hash eventData;
                 te_block_height := ne_block_height eventData;
                 te_block_time := ne_block_time eventData;
                 te_event_type := EventType_value (ne_event_type eventData);
                 te_event_data := ne_event_data eventData;
                 te_address_id := ne_address_id eventData;
                 te_contract_id := ne_contract_id eventData;
                 te_processed := false;
                 te_created_at := now |}]> db)).

(** The argument of [createTransactionEvent] in [checkAddressTransactions]. *)
Definition addressEvent (address : MonitoredAddress) (tx : ListedTx)
    (txInfo : CardanoTransaction) (eventType : EventType) : NewTransactionEvent :=
  {| ne_tx_hash := tx_hash tx;
     ne_block_height := Some (block_height txInfo);
     ne_block_time := Some (block_time txInfo * 1000);
     ne_event_type := eventType;
     ne_event_data := AddressData txInfo (ma_address address);
     ne_address_id := Some (ma_id address);
     ne_contract_id := None |}.

(** The argument of [createTransactionEvent] in [checkContractTransactions]. *)
Definition contractEvent (contract : MonitoredContract) (tx : ListedTx)
    (txInfo : CardanoTransaction) (eventType : EventType) : NewTransactionEvent :=
  {| ne_tx_hash := tx_hash tx;
     ne_block_height := Some (block_height txInfo);
     ne_block_time := Some (block_time txInfo * 1000);
     ne_event_type := eventType;
     ne_event_data := ContractData txInfo (mc_address contract);
     ne_address_id := None;
     ne_contract_id := Some (mc_id contract) |}.

(** The body of [for (const tx of transactions)] in
    [checkAddressTransactions]: the cache after the iteration and the ids of
    the events it created. *)
Definition addressTxBody (client : Blockfrost.Client) (address : MonitoredAddress)
    (now : Z) (c : LastProcessedTxs) (tx : ListedTx)
    : DB (LastProcessedTxs * list string) :=
  match admitAddressTx (txKey (ma_id address) (tx_hash tx)) c with
  | None => mret (c, [])
  | Some c' =>
      let txInfo := Blockfrost.getTransactionInfo client (tx_hash tx) in
      ids ← mapM (λ eventType,
                    createTransactionEvent (addressEvent address tx txInfo eventType) now)
                 (addressEventTypes (ma_address address) tx txInfo);
      mret (c', ids)
  end.

(** The body of the loop of [checkContractTransactions]. *)
Definition contractTxBody (client : Blockfrost.Client) (contract : MonitoredContract)
    (now : Z) (c : LastProcessedTxs) (tx : ListedTx)
    : DB (LastProcessedTxs * list string) :=
  match admitContractTx (txKey (mc_id contract) (tx_hash tx)) c with
  | None => mret (c, [])
  | Some c' =>
      let txInfo := Blockfrost.getTransactionInfo client (tx_hash tx) in
      ids ← mapM (λ eventType,
                    createTransactionEvent (contractEvent contract tx txInfo eventType) now)
                 (contractEventTypes txInfo);
      mret (c', ids)
  end.

(** [for (const tx of transactions) body] *)
Fixpoint forEachTx (body : LastProcessedTxs → ListedTx → DB (LastProcessedTxs * list string))
    (c : LastProcessedTxs) (transactions : list ListedTx)
    : DB (LastProcessedTxs * list string) :=
  match transactions with
  | [] => mret (c, [])
  | tx :: rest =>
      r1 ← body c tx;
      r2 ← forEachTx body r1.1 rest;
      mret (r2.1, r1.2 ++ r2.2)
  end.

Definition checkAddressTransactions (client : Blockfrost.Client)
    (address : MonitoredAddress) (now : Z) (c : LastProcessedTxs)
    : DB (LastProcessedTxs * list string) :=
  let transactions := Blockfrost.addressesTransactions client (ma_address address) in
  query (UpdateLastChecked (ma_id address));;
  forEachTx (addressTxBody client address now) c transactions.

Definition checkContractTransactions (client : Blockfrost.Client)
    (contract : MonitoredContract) (now : Z) (c : LastProcessedTxs)
    : DB (LastProcessedTxs * list string) :=
  let transactions := Blockfrost.addressesTransactions client (mc_address contract) in
  query (UpdateLastChecked (mc_id contract));;
  forEachTx (contractTxBody client contract now) c transactions.

(** The dedup decisions of one scan, read off the loop: for the keys in the
    order visited, [true] where the body went on to process the
    transaction, [false] where it hit the [continue]. *)
Fixpoint dedupRun (enter : string → LastProcessedTxs → option LastProcessedTxs)
    (c : LastProcessedTxs) (keys : list string) : list bool * LastProcessedTxs :=
  match keys with
  | [] => ([], c)
  | key :: rest =>
      match enter key c with
      | None => let r := dedupRun enter c rest in (false :: r.1, r.2)
      | Some c' => let r := dedupRun enter c' rest in (true :: r.1, r.2)
      end
  end.

End Monitor.

(** ** The subscription matcher and the delivery engine ([webhooks/processor.ts]) *)

Module Processor.

(** [config.webhook] *)
Record Config := { maxRetries : Z; retryDelay : Z }.

(** The defaults of [config/index.ts]. *)
Definition config : Config := {| maxRetries := 5; retryDelay := 30000 |}.

(** [SELECT * FROM transaction_events WHERE id = $1] *)
Definition selectTransactionEvent (eventId : string) : DB (option TransactionEvent) :=
  λ db, (transaction_events db !! eventId,
         logged (SelectTransactionEvent eventId) db).

Definition markProcessed (te : TransactionEvent) : TransactionEvent :=
  {| te_tx_hash := te_tx_hash te;
     te_block_height := te_block_height te;
     te_block_time := te_block_time te;
     te_event_type := te_event_type te;
     te_event_data := te_event_data te;
     te_address_id := te_address_id te;
     te_contract_id := te_contract_id te;
     te_processed := true;
     te_created_at := te_created_at te |}.

(** [UPDATE transaction_events SET processed = true WHERE id = $1] *)
Definition updateProcessed (eventId : string) : DB unit :=
  λ db, (tt, logged (UpdateTransactionEventProcessed eventId)
               (set_transaction_events (alter markProcessed eventId) db)).

(** [is_active = true AND event_types @> ARRAY[$1]::text[]] *)
Definition matchesEvent (event_type : string) (w : Webhook) : Prop :=
  w_is_active w = true ∧ event_type ∈ w_event_types w.

#[global] Instance matchesEvent_dec ty w : Decision (matchesEvent ty w).
Proof. unfold matchesEvent. apply _. Defined.

(** [SELECT * FROM webhooks WHERE is_active = true AND event_types @> ...];
    a row is the pair of its id and its other columns. *)
Definition selectMatchingWebhooks (event_type : string) : DB (list (string * Webhook)) :=
  λ db, (filter (λ r, matchesEvent event_type r.2) (map_to_list (webhooks db)),
         logged (SelectMatchingWebhooks event_type) db).

(** The row that [queueWebhookDelivery] inserts. *)
Definition newDelivery (webhook_id event_id : string) (now : Z) : WebhookDelivery :=
  {| wd_webhook_id := webhook_id;
     wd_event_id := event_id;
     wd_attempt_count := 0;
     wd_status := PENDING;
     wd_status_code := None;
     wd_response_body := None;
     wd_next_retry_at := Some now;        (* new Date(): immediate delivery *)
     wd_created_at := now;
     wd_completed_at := None |}.

(** [queueWebhookDelivery]: inserts the delivery and hands its id to
    [setImmediate(() => deliverWebhook(deliveryId))]; the result is that id. *)
Definition queueWebhookDelivery (webhook : string * Webhook)
    (event : string * TransactionEvent) (now : Z) : DB string :=
  λ db,
    let deliveryId := fresh (dom (webhook_deliveries db)) in
    (deliveryId,
     logged (InsertWebhookDelivery deliveryId)
       (set_webhook_deliveries <[deliveryId := newDelivery webhook.1 event.1 now]> db)).

(** [processEvent]; the result lists the deliveries whose immediate attempt
    was scheduled. *)
Definition processEvent (eventId : string) (now : Z) : DB (list string) :=
  eventResult ← selectTransactionEvent eventId;
  match eventResult with
  | None => mret []
  | Some event =>
      updateProcessed eventId;;
      webhooks ← selectMatchingWebhooks (te_event_type event);
      match webhooks with
      | [] => mret []
      | _ => mapM (λ webhook, queueWebhookDelivery webhook (eventId, event) now) webhooks
      end
  end.

(** The row of the three-table join that [deliverWebhook] loads. *)
Record DeliveryRow := {
  delivery : WebhookDelivery;
  webhook : Webhook;
  event : TransactionEvent
}.

(** [SELECT wd.*, w.url, w.secret, w.headers, te.* FROM webhook_deliveries wd
    JOIN webhooks w ... JOIN transaction_events te ... WHERE wd.id = $1] *)
Definition selectDelivery (deliveryId : string) : DB (option DeliveryRow) :=
  λ db,
    (wd ← webhook_deliveries db !! deliveryId;
     w ← webhooks db !! wd_webhook_id wd;
     te ← transaction_events db !! wd_event_id wd;
     Some {| delivery := wd; webhook := w; event := te |},
     logged (SelectWebhookDelivery deliveryId) db).

Definition inProgress (wd : WebhookDelivery) : WebhookDelivery :=
  {| wd_webhook_id := wd_webhook_id wd;
     wd_event_id := wd_event_id wd;
     wd_attempt_count := wd_attempt_count wd + 1;
     wd_status := IN_PROGRESS;
     wd_status_code := wd_status_code wd;
     wd_response_body := wd_response_body wd;
     wd_next_retry_at := wd_next_retry_at wd;
     wd_created_at := wd_created_at wd;
     wd_completed_at := wd_completed_at wd |}.

(** [UPDATE webhook_deliveries SET status = 'in_progress',
    attempt_count = attempt_count + 1 WHERE id = $2] *)
Definition updateInProgress (deliveryId : string) : DB unit :=
  λ db, (tt, logged (UpdateWebhookDelivery deliveryId IN_PROGRESS)
               (set_webhook_deliveries (alter inProgress deliveryId) db)).

(** [SET status, status_code, response_body, completed_at = CURRENT_TIMESTAMP]
    (the success and the max-retries updates). *)
Definition completed (status : WebhookDeliveryStatus) (status_code : Z)
    (response_body : option string) (now : Z) (wd : WebhookDelivery) : WebhookDelivery :=
  {| wd_webhook_id := wd_webhook_id wd;
     wd_event_id := wd_event_id wd;
     wd_attempt_count := wd_attempt_count wd;
     wd_status := status;
     wd_status_code := Some status_code;
     wd_response_body := response_body;
     wd_next_retry_at := wd_next_retry_at wd;
     wd_created_at := wd_created_at wd;
     wd_completed_at := Some now |}.

(** [SET status = 'retrying', status_code, response_body, next_retry_at] *)
Definition retrying (status_code : Z) (response_body : option string)
    (nextRetryAt : Z) (wd : WebhookDelivery) : WebhookDelivery :=
  {| wd_webhook_id := wd_webhook_id wd;
     wd_event_id := wd_event_id wd;
     wd_attempt_count := wd_attempt_count wd;
     wd_status := RETRYING;
     wd_status_code := Some status_code;
     wd_response_body := response_body;
     wd_next_retry_at := Some nextRetryAt;
     wd_created_at := wd_created_at wd;
     wd_completed_at := wd_completed_at wd |}.

(** [SET status = 'failed', response_body, completed_at = CURRENT_TIMESTAMP] *)
Definition failed (response_body : string) (now : Z) (wd : WebhookDelivery)
    : WebhookDelivery :=
  {| wd_webhook_id := wd_webhook_id wd;
     wd_event_id := wd_event_id wd;
     wd_attempt_count := wd_attempt_count wd;
     wd_status := FAILED;
     wd_status_code := wd_status_code wd;
     wd_response_body := Some response_body;
     wd_next_retry_at := wd_next_retry_at wd;
     wd_created_at := wd_created_at wd;
     wd_completed_at := Some now |}.

Definition updateDelivery (deliveryId : string) (status : WebhookDeliveryStatus)
    (f : WebhookDelivery → WebhookDelivery) : DB unit :=
  λ db, (tt, logged (UpdateWebhookDelivery deliveryId status)
               (set_webhook_deliveries (alter f deliveryId) db)).

(** How an attempt ends once the delivery is in progress:
    - [Resolved status data]: [axios.post] resolves (a 2xx answer);
    - [Rejected response message]: [axios.post] rejects; [response] is the
      answer's status and (when truthy) its body, [None] when no answer came;
    - [Thrown message]: an error is thrown in the outer [try], outside the
      POST (the outer [catch] then records the failure). *)
Inductive PostResult :=
  | Resolved (status : Z) (data : Json)
  | Rejected (response : option (Z * option Json)) (message : option string)
  | Thrown (message : option string).

(** [retryDelay * Math.pow(2, attempt_count - 1)] *)
Definition retryDelayMs (cfg : Config) (attempt_count : Z) : Q :=
  (inject_Z (retryDelay cfg) * Qpower (2 # 1) (attempt_count - 1))%Q.

(** [new Date(t)] keeps the integral part of the time value. *)
Definition newDate (t : Q) : Z := Z.quot (Qnum t) (Zpos (Qden t)).

(** The outer [catch] of [deliverWebhook]:
    [(error as Error).message || 'Unknown error'] is recorded. *)
Definition catchError (deliveryId : string) (now : Z) (message : option string)
    : DB unit :=
  let text :=
    match message with
    | Some m => if bool_decide (m = "") then "Unknown error" else m
    | None => "Unknown error"
    end in
  updateDelivery deliveryId FAILED (failed text now).

(** The part of [deliverWebhook] after the update to in-progress: the POST
    and the update that records its outcome.  [row] is the row as it was
    loaded at the start of the attempt. *)
Definition recordResult (cfg : Config) (deliveryId : string) (row : DeliveryRow)
    (now : Z) (result : PostResult) : DB unit :=
  match result with
  | Resolved status data =>
      updateDelivery deliveryId SUCCEEDED (completed SUCCEEDED status (Some data) now)
  | Rejected response message =>
      let statusCode := match response with Some (status, _) => status | None => 0 end in
      let responseBody :=
        match response with Some (_, Some data) => Some data | _ => message end in
      let shouldRetry := bool_decide (wd_attempt_count (delivery row) < maxRetries cfg) in
      if shouldRetry then
        let nextRetryAt :=
          newDate (inject_Z now + retryDelayMs cfg (wd_attempt_count (delivery row)))%Q in
        updateDelivery deliveryId RETRYING (retrying statusCode responseBody nextRetryAt)
      else
        updateDelivery deliveryId MAX_RETRIES_EXCEEDED
          (completed MAX_RETRIES_EXCEEDED statusCode responseBody now)
  | Thrown message => catchError deliveryId now message
  end.

(** [deliverWebhook], run without interruption: [result] is what the POST
    will answer. *)
Definition deliverWebhook (cfg : Config) (deliveryId : string) (now : Z)
    (result : PostResult) : DB unit :=
  deliveryResult ← selectDelivery deliveryId;
  match deliveryResult with
  | None => mret tt
  | Some row =>
      updateInProgress deliveryId;;
      recordResult cfg deliveryId row now result
  end.

(** [status = 'pending' OR (status = 'retrying' AND next_retry_at <= now)] *)
Definition isDue (now : Z) (wd : WebhookDelivery) : bool :=
  bool_decide (wd_status wd = PENDING)
  || (bool_decide (wd_status wd = RETRYING)
      && match wd_next_retry_at wd with
         | Some t => bool_decide (t ≤ now)%Z
         | None => false
         end).

(** [processWebhookQueue]: the ids selected ([LIMIT 100] of the rows as the
    table enumerates them), each handed to [deliverWebhook] without awaiting
    it. *)
Definition processWebhookQueue (now : Z) : DB (list string) :=
  λ db,
    (take 100 (filter (λ r, isDue now r.2) (map_to_list (webhook_deliveries db))).*1,
     logged SelectDueWebhookDeliveries db).

End Processor.

(** ** The running system

    [processEvent], the sweeper and the calls of [deliverWebhook] are
    asynchronous: a call of [deliverWebhook] gives up control at each
    [await], and other calls run in between.  A state of the system is the
    database with the calls of [deliverWebhook] that are in flight, each at
    the [await] it has reached.  [processEvent] and [processWebhookQueue]
    are taken as one step each (the rows they insert are fresh and they
    update no delivery). *)

Module System.
Import Processor.

Inductive Task :=
  | Called (deliveryId : string)                        (* before the SELECT *)
  | Loaded (deliveryId : string) (row : DeliveryRow)    (* before the first UPDATE *)
  | Posting (deliveryId : string) (row : DeliveryRow).  (* the POST is under way *)

Definition task_id (t : Task) : string :=
  match t with
  | Called deliveryId | Loaded deliveryId _ | Posting deliveryId _ => deliveryId
  end.

Record State := { db : Db; inflight : list Task }.

(** [createTransactionEvent] of the monitor. *)
Definition doCreateEvent (eventData : NewTransactionEvent) (now : Z) (st : State) : State :=
  {| db := (Monitor.createTransactionEvent eventData now (db st)).2;
     inflight := inflight st |}.

(** [processEvent]: every queued delivery gets its immediate call. *)
Definition doProcessEvent (eventId : string) (now : Z) (st : State) : State :=
  let r := processEvent eventId now (db st) in
  {| db := r.2; inflight := inflight st ++ (Called <$> r.1) |}.

(** One tick of the sweeper. *)
Definition doSweep (now : Z) (st : State) : State :=
  let r := processWebhookQueue now (db st) in
  {| db := r.2; inflight := inflight st ++ (Called <$> r.1) |}.

(** The call at position [i] runs its SELECT; it returns when no row is found. *)
Definition doSelect (i : nat) (deliveryId : string) (st : State) : State :=
  let r := selectDelivery deliveryId (db st) in
  {| db := r.2;
     inflight := match r.1 with
                 | Some row => <[i := Loaded deliveryId row]> (inflight st)
                 | None => delete i (inflight st)
                 end |}.

(** The call at position [i] marks the delivery in progress and posts. *)
Definition doInProgress (i : nat) (deliveryId : string) (row : DeliveryRow)
    (st : State) : State :=
  {| db := (updateInProgress deliveryId (db st)).2;
     inflight := <[i := Posting deliveryId row]> (inflight st) |}.

(** The POST of the call at position [i] ends; the call records the outcome
    and returns. *)
Definition doResult (cfg : Config) (i : nat) (deliveryId : string) (row : DeliveryRow)
    (now : Z) (result : PostResult) (st : State) : State :=
  {| db := (recordResult cfg deliveryId row now result (db st)).2;
     inflight := delete i (inflight st) |}.

(** An error is thrown in the call at position [i]; its outer [catch] runs. *)
Definition doCatch (i : nat) (deliveryId : string) (now : Z) (message : option string)
    (st : State) : State :=
  {| db := (catchError deliveryId now message (db st)).2;
     inflight := delete i (inflight st) |}.

Inductive step (cfg : Config) : State → State → Prop :=
  | step_createEvent st eventData now :
      step cfg st (doCreateEvent eventData now st)
  | step_processEvent st eventId now :
      step cfg st (doProcessEvent eventId now st)
  | step_sweep st now :
      step cfg st (doSweep now st)
  | step_select st i deliveryId :
      inflight st !! i = Some (Called deliveryId) →
      step cfg st (doSelect i deliveryId st)
  | step_inProgress st i deliveryId row :
      inflight st !! i = Some (Loaded deliveryId row) →
      step cfg st (doInProgress i deliveryId row st)
  | step_result st i deliveryId row now result :
      inflight st !! i = Some (Posting deliveryId row) →
      step cfg st (doResult cfg i deliveryId row now result st)
  | step_catch st i t now message :
      inflight st !! i = Some t →
      step cfg st (doCatch i (task_id t) now message st).

(** The call at position [i] runs up to its next [await]; [now] and [result]
    are used when that is the end of its POST. *)
Definition advance (cfg : Config) (i : nat) (now : Z) (result : PostResult)
    (st : State) : State :=
  match inflight st !! i with
  | Some (Called deliveryId) => doSelect i deliveryId st
  | Some (Loaded deliveryId row) => doInProgress i deliveryId row st
  | Some (Posting deliveryId row) => doResult cfg i deliveryId row now result st
  | None => st
  end.

(** The system starts with no delivery and no call in flight. *)
Definition initial (st : State) : Prop :=
  webhook_deliveries (db st) = ∅ ∧ inflight st = [].

Definition terminal (s : WebhookDeliveryStatus) : Prop :=
  s = SUCCEEDED ∨ s = MAX_RETRIES_EXCEEDED ∨ s = FAILED.

#[global] Instance terminal_dec s : Decision (terminal s).
Proof. unfold terminal. apply _. Defined.

(** Every delivery that is RETRYING has a retry time. *)
Definition retryingScheduled (m : gmap string WebhookDelivery) : Prop :=
  ∀ id wd, m !! id = Some wd → wd_status wd = RETRYING → is_Some (wd_next_retry_at wd).

(** No call of [deliverWebhook] is in flight for the delivery. *)
Definition noCallFor (deliveryId : string) (st : State) : Prop :=
  ∀ t, t ∈ inflight st → task_id t ≠ deliveryId.

End System.

(** ** A concrete run, used in the examples below *)

Module Scenario.
Import Processor System.

Definition T1 : CardanoTransaction :=
  {| hash := "T1"; block_height := 100; block_time := 1700000000;
     asset_mint_count := 0; metadata := Some ∅ |}.

(** An event [ada_received] of the watched address [a1]. *)
Definition e1 : TransactionEvent :=
  {| te_tx_hash := "T1"; te_block_height := Some 100;
     te_block_time := Some 1700000000000;
     te_event_type := EventType_value ADA_RECEIVED;
     te_event_data := AddressData T1 "addr1";
     te_address_id := Some "a1"; te_contract_id := None;
     te_processed := false; te_created_at := 0 |}.

(** An active webhook subscribed to [ada_received]. *)
Definition w1 : Webhook :=
  {| w_name := "hook"; w_url := "https://example.org/hook"; w_secret := None;
     w_event_types := [EventType_value ADA_RECEIVED]; w_headers := None;
     w_is_active := true |}.

Definition db0 : Db :=
  {| transaction_events := {["e1" := e1]};
     webhooks := {["w1" := w1]};
     webhook_deliveries := ∅;
     journal := [] |}.

Definition st0 : State := {| db := db0; inflight := [] |}.

(** The same store with a webhook subscribed to [token_received] only. *)
Definition unsubscribed : Db :=
  {| transaction_events := {["e1" := e1]};
     webhooks := {["w2" := {| w_name := "tokens"; w_url := "https://example.org/tokens";
                              w_secret := None;
                              w_event_types := [EventType_value TOKEN_RECEIVED];
                              w_headers := None; w_is_active := true |}]};
     webhook_deliveries := ∅;
     journal := [] |}.

(** The endpoint answers 500. *)
Definition http500 : PostResult := Rejected (Some (500, None)) (Some "Request failed with status code 500").

(** The endpoint answers 200. *)
Definition http200 : PostResult := Resolved 200 "{}".

(** The event is processed at time 1000: one delivery, with id ["0"]. *)
Definition queued : Db := (processEvent "e1" 1000 db0).2.

(** [n] attempts that all fail, one every minute from time 2000 on, each
    run without interruption. *)
Fixpoint failures (cfg : Config) (n : nat) : Db :=
  match n with
  | O => queued
  | S m => (deliverWebhook cfg "0" (2000 + 60000 * Z.of_nat m) http500 (failures cfg m)).2
  end.

(** The status of delivery ["0"]. *)
Definition statusOf (st : State) : option WebhookDeliveryStatus :=
  wd_status <$> webhook_deliveries (db st) !! "0".

(** One call after the other: the event is processed at time 1000, the
    immediate call loads the row, marks it in progress and posts. *)
Definition posted : State :=
  advance config 0 0 http200 (advance config 0 0 http200 (doProcessEvent "e1" 1000 st0)).

(** ... and the endpoint answers 200 at time 2000 ... *)
Definition delivered : State := advance config 0 2000 http200 posted.

(** ... or it answers 500. *)
Definition rejected : State := advance config 0 2000 http500 posted.

(** A race of the immediate call with the sweeper: the sweeper selects the
    delivery while it is still pending (time 1001), so two calls of
    [deliverWebhook] are in flight for it.  Both load the row, both mark it
    in progress and post. *)
Definition bothPosting : State :=
  advance config 1 0 http200
    (advance config 0 0 http200
       (advance config 1 0 http200
          (advance config 0 0 http200
             (doSweep 1001 (doProcessEvent "e1" 1000 st0))))).

(** The first POST is answered 200 at time 1500 ... *)
Definition firstAnswered : State := advance config 0 1500 http200 bothPosting.

(** ... and the second one fails at time 11001. *)
Definition secondFailed : State := advance config 0 11001 http500 firstAnswered.

(** The provider: one transaction [T1], which pays 5000000 lovelace to
    [addr1], mints one asset and carries no metadata. *)
Definition listedT1 : ListedTx :=
  {| tx_hash := "T1";
     inputs := Some [{| entry_address := Some "addr0"; entry_amount := None |}];
     outputs := Some [{| entry_address := Some "addr1";
                         entry_amount :=
                           Some [Some {| unit_ := "lovelace"; quantity := "5000000" |}] |}] |}.

Definition provider : Blockfrost.Client :=
  {| Blockfrost.addressesTransactions := λ _, [listedT1];
     Blockfrost.txs := λ _,
       {| bf_hash := "T1"; bf_block_height := 100; bf_block_time := 1700000000;
          bf_asset_mint_count := Some 1 |};
     Blockfrost.txsMetadata := λ _, Some [] |}.

Definition a1 : MonitoredAddress := {| ma_id := "a1"; ma_address := "addr1" |}.
Definition c1 : MonitoredContract := {| mc_id := "c1"; mc_address := "addr1" |}.

Definition emptyDb : Db :=
  {| transaction_events := ∅; webhooks := ∅; webhook_deliveries := ∅; journal := [] |}.

(** The types of the events that a scan created, in the order of creation. *)
Definition createdEventTypes (r : Monitor.LastProcessedTxs * list string * Db)
    : list string :=
  omap (λ id, te_event_type <$> transaction_events r.2 !! id) r.1.2.




End Scenario.

(** ** The listing of the provider

    [blockfrostClient.addressesTransactions] lists a transaction of an
    address by its hash, with [tx_index], [block_height] and [block_time],
    which the monitor does not read.  The inputs and the outputs of the
    transaction are not properties of the element. *)

Module Listing.

(** The element that lists the transaction [tx]. *)
Definition listed (tx : ListedTx) : ListedTx :=
  {| tx_hash := tx_hash tx; inputs := None; outputs := None |}.

(** The provider of the scenario with its transactions listed so: [T1],
    whose entries are those of [Scenario.listedT1], is listed by its hash. *)
Definition listingProvider : Blockfrost.Client :=
  {| Blockfrost.addressesTransactions := λ address,
       listed <$> Blockfrost.addressesTransactions Scenario.provider address;
     Blockfrost.txs := Blockfrost.txs Scenario.provider;
     Blockfrost.txsMetadata := Blockfrost.txsMetadata Scenario.provider |}.

End Listing.



(** ** One monitoring cycle ([monitorBlockchain]) and the monitoring routes
    ([api/routes/monitoring.ts]) *)

Module Monitoring.
Import Monitor.

(** A row of [monitored_addresses] or of [monitored_contracts]; the key of
    the table is the [id]. *)
Record MonitoredRow := {
  mr_address : string;
  mr_name : option string;
  mr_description : option string;
  mr_is_active : bool
}.

(** [SELECT * FROM monitored_addresses WHERE is_active = true] *)
Definition getActiveAddresses (t : gmap string MonitoredRow) : list MonitoredAddress :=
  (λ r, {| ma_id := r.1; ma_address := mr_address r.2 |})
    <$> filter (λ r : string * MonitoredRow, mr_is_active r.2 = true) (map_to_list t).

(** [SELECT * FROM monitored_contracts WHERE is_active = true] *)
Definition getActiveContracts (t : gmap string MonitoredRow) : list MonitoredContract :=
  (λ r, {| mc_id := r.1; mc_address := mr_address r.2 |})
    <$> filter (λ r : string * MonitoredRow, mr_is_active r.2 = true) (map_to_list t).

(** [for (const e of es) await check(e)] *)
Fixpoint forEachEntity {E : Type}
    (check : E → LastProcessedTxs → DB (LastProcessedTxs * list string))
    (es : list E) (c : LastProcessedTxs) : DB (LastProcessedTxs * list string) :=
  match es with
  | [] => mret (c, [])
  | e :: rest =>
      r1 ← check e c;
      r2 ← forEachEntity check rest r1.1;
      mret (r2.1, r1.2 ++ r2.2)
  end.

(** The callback of [setInterval] in [monitorBlockchain]: every active
    address is checked, then every active contract. *)
Definition monitorCycle (client : Blockfrost.Client)
    (addressTable contractTable : gmap string MonitoredRow) (now : Z)
    (c : LastProcessedTxs) : DB (LastProcessedTxs * list string) :=
  let addresses := getActiveAddresses addressTable in
  let contracts := getActiveContracts contractTable in
  r1 ← forEachEntity (λ address, checkAddressTransactions client address now) addresses c;
  r2 ← forEachEntity (λ contract, checkContractTransactions client contract now)
         contracts r1.1;
  mret (r2.1, r1.2 ++ r2.2).


(** [s || null]: the empty string is falsy. *)
Definition orNull (s : option string) : option string :=
  match s with
  | Some "" | None => None
  | Some s => Some s
  end.




(** Neither key set is larger than the limit. *)
Definition withinLimit (c : LastProcessedTxs) : Prop :=
  (size (addresses c) ≤ maxSize c)%nat ∧ (size (contracts c) ≤ maxSize c)%nat.

End Monitoring.

(** ** Authentication ([middleware/auth.ts]) *)

Module Auth.

(** A row of [api_keys]. *)
Record ApiKey := {
  ak_name : string;
  ak_key_hash : string;
  ak_permissions : list string;
  ak_expires_at : option Z;
  ak_last_used_at : option Z;
  ak_is_active : bool
}.

(** [s.split(sep)] for a separator of one character: the pieces between
    the occurrences of [sep], empty pieces included. *)
Fixpoint jsSplit (sep : ascii) (s : string) : list string :=
  match s with
  | EmptyString => [EmptyString]
  | String a s' =>
      if bool_decide (a = sep) then EmptyString :: jsSplit sep s'
      else match jsSplit sep s' with
           | piece :: pieces => String a piece :: pieces
           | [] => [String a EmptyString]
           end
  end.

(** How [apiKeyAuth] ends: [next()] with [req.apiKey] set to the row found,
    or a 401 with its error text. *)
Inductive AuthResult :=
  | Authenticated (id : string) (apiKeyData : ApiKey)
  | Unauthorized (error : string).

Definition touch (now : Z) (k : ApiKey) : ApiKey :=
  {| ak_name := ak_name k; ak_key_hash := ak_key_hash k;
     ak_permissions := ak_permissions k; ak_expires_at := ak_expires_at k;
     ak_last_used_at := Some now; ak_is_active := ak_is_active k |}.

(** [apiKeyAuth]; [authorization] is [req.headers.authorization]. *)
Definition apiKeyAuth (authorization : option string) (now : Z)
    (keys : gmap string ApiKey) : AuthResult * gmap string ApiKey :=
  match authorization with
  | None => (Unauthorized "API key is required", keys)
  | Some authHeader =>
      if negb (String.prefix "Bearer " authHeader)
      then (Unauthorized "API key is required", keys)
      else
        match jsSplit " " authHeader !! 1%nat with
        | None | Some EmptyString => (Unauthorized "Invalid API key format", keys)
        | Some apiKey =>
            let keyHash := "placeholder-hash-" +:+ apiKey in
            match filter (λ r : string * ApiKey,
                            ak_key_hash r.2 = keyHash ∧ ak_is_active r.2 = true)
                    (map_to_list keys) with
            | [] => (Unauthorized "Invalid API key", keys)
            | apiKeyData :: _ =>
                if match ak_expires_at apiKeyData.2 with
                   | Some t => bool_decide (t < now)
                   | None => false
                   end
                then (Unauthorized "API key has expired", keys)
                else (Authenticated apiKeyData.1 apiKeyData.2,
                      alter (touch now) apiKeyData.1 keys)
            end
        end
  end.




End Auth.

(** ** The webhook routes ([api/routes/webhooks.ts]) and the delivery
    listing ([api/routes/deliveries.ts])

    The statements of the routes are not entered in the journal. *)

Module Routes.
Import Auth.

(** [Object.values(EventType)] *)
Definition validEventTypes : list string :=
  EventType_value <$>
    [TRANSACTION_RECEIVED; TRANSACTION_SENT; ADA_RECEIVED; ADA_SENT;
     TOKEN_RECEIVED; TOKEN_SENT; TOKEN_MINTED; TOKEN_BURNED;
     NFT_RECEIVED; NFT_SENT; CONTRACT_EXECUTED; STAKE_DELEGATED;
     REWARD_RECEIVED; GOVERNANCE_VOTE; DEFI_INTERACTION; DEX_INTERACTION;
     COLLATERAL_LOCKED; COLLATERAL_RELEASED; ORACLE_UPDATE; METADATA_ADDED;
     MULTI_SIG_TRANSACTION; TIME_LOCKED_EXECUTION].

(** [req.body] of [POST /api/webhooks]; a field is [None] when it is
    missing, and [req_event_types] also when it is not an array. *)
Record WebhookBody := {
  req_name : option string;
  req_url : option string;
  req_secret : option string;
  req_event_types : option (list string);
  req_headers : option (list (string * string))
}.

Inductive WebhookResponse :=
  | Registered (id : string)                    (* 201 *)
  | Deleted                                     (* 204 *)
  | BadRequest (error : string)                 (* 400 *)
  | WebhookNotFound                             (* 404 *)
  | Denied (status : Z) (error : string).       (* 401, 403: a middleware *)

Definition set_webhooks (f : gmap string Webhook → gmap string Webhook) (db : Db) : Db :=
  {| transaction_events := transaction_events db;
     webhooks := f (webhooks db);
     webhook_deliveries := webhook_deliveries db;
     journal := journal db |}.

(** The handler of [POST /api/webhooks].  [isURL] tells whether [new URL(url)]
    accepts the text. *)
Definition postWebhook (isURL : string → bool) (body : WebhookBody) : DB WebhookResponse :=
  match Monitoring.orNull (req_name body), Monitoring.orNull (req_url body),
        req_event_types body with
  | Some name, Some url, Some (event_type :: event_types) =>
      if negb (isURL url) then mret (BadRequest "Invalid URL format")
      else
        match filter (λ type, type ∉ validEventTypes) (event_type :: event_types) with
        | _ :: _ => mret (BadRequest "Invalid event types")
        | [] =>
            λ db,
              let id := fresh (dom (webhooks db)) in
              (Registered id,
               set_webhooks
                 <[id := {| w_name := name; w_url := url;
                            w_secret := Monitoring.orNull (req_secret body);
                            w_event_types := event_type :: event_types;
                            w_headers := req_headers body;
                            w_is_active := true |}]> db)
        end
  | _, _, _ => mret (BadRequest "Name, URL, and at least one event type are required")
  end.

Definition deactivateWebhook (w : Webhook) : Webhook :=
  {| w_name := w_name w; w_url := w_url w; w_secret := w_secret w;
     w_event_types := w_event_types w; w_headers := w_headers w;
     w_is_active := false |}.

(** The handler of [DELETE /api/webhooks/:webhookId]:
    [UPDATE webhooks SET is_active = false WHERE id = $1 RETURNING id]. *)
Definition deleteWebhook (webhookId : string) : DB WebhookResponse :=
  λ db,
    match webhooks db !! webhookId with
    | Some _ => (Deleted, set_webhooks (alter deactivateWebhook webhookId) db)
    | None => (WebhookNotFound, db)
    end.



(** The value of each member of the [WebhookDeliveryStatus] enum, which is
    what the engine writes into [webhook_deliveries.status]. *)
Definition WebhookDeliveryStatus_value (s : WebhookDeliveryStatus) : string :=
  match s with
  | PENDING => "pending"
  | IN_PROGRESS => "in_progress"
  | SUCCEEDED => "succeeded"
  | FAILED => "failed"
  | RETRYING => "retrying"
  | MAX_RETRIES_EXCEEDED => "max_retries_exceeded"
  end.

(** [Joi.string().valid(...)] of [getDeliveriesSchema.status]. *)
Definition statusFilters : list string :=
  ["PENDING"; "IN_PROGRESS"; "SUCCEEDED"; "RETRYING"; "FAILED"; "MAX_RETRIES_EXCEEDED"].

(** The three filters of [GET /api/deliveries] after validation; a filter
    is applied when its value is truthy. *)
Definition deliverySelected (webhookId eventId status : option string)
    (r : string * WebhookDelivery) : Prop :=
  (∀ v, Monitoring.orNull webhookId = Some v → wd_webhook_id r.2 = v)
  ∧ (∀ v, Monitoring.orNull eventId = Some v → wd_event_id r.2 = v)
  ∧ (∀ v, Monitoring.orNull status = Some v →
          WebhookDeliveryStatus_value (wd_status r.2) = v).

#[global] Instance deliverySelected_dec webhookId eventId status r :
  Decision (deliverySelected webhookId eventId status r).
Proof.
  unfold deliverySelected.
  destruct (Monitoring.orNull webhookId), (Monitoring.orNull eventId),
    (Monitoring.orNull status);
    (apply and_dec; [|apply and_dec]);
    first [ right; intros H; by specialize (H _ eq_refl)
          | left; intros v Hv; congruence
          | match goal with
            | |- Decision (∀ v, Some ?x = Some v → ?l = v) =>
                destruct (decide (l = x)); [left; congruence|right; intros H; by specialize (H _ eq_refl)]
            end ].
Defined.

Inductive DeliveriesResponse :=
  | Listing (totalCount : nat)            (* 200; the page of rows is not modelled *)
  | InvalidQuery                           (* 400 *)
  | DeliveriesDenied (status : Z) (error : string).

(** The handler of [GET /api/deliveries] up to its count query.  [isUuid] is
    [Joi.string().uuid()]; the checks of [limit], [offset], [sortBy] and
    [sortOrder] and the page query are left out. *)
Definition getDeliveries (isUuid : string → bool)
    (webhookId eventId status : option string) : DB DeliveriesResponse :=
  λ db,
    if from_option isUuid true webhookId && from_option isUuid true eventId
       && from_option (λ s, bool_decide (s ∈ statusFilters)) true status
    then (Listing (length (filter (deliverySelected webhookId eventId status)
                             (map_to_list (webhook_deliveries db)))), db)
    else (InvalidQuery, db).

End Routes.

(** ** Several attempts in a row *)

Module Attempts.
Import Processor.

(** The calls [deliverWebhook(deliveryId)] of the list, each run without
    interruption at its time and with its outcome. *)
Definition runAttempts (cfg : Config) (deliveryId : string)
    (attempts : list (Z * PostResult)) (db : Db) : Db :=
  foldl (λ db a, (deliverWebhook cfg deliveryId a.1 a.2 db).2) db attempts.

Definition isRejected (a : Z * PostResult) : Prop :=
  match a.2 with Rejected _ _ => True | _ => False end.

(** The time values of a [Date] are at most 8.64e15 ms away from the epoch;
    for a time beyond, [new Date] gives an invalid date, which the UPDATE
    to RETRYING cannot store. *)
Definition maxTime : Z := 8640000000000000.

Definition isValidTime (t : Q) : Prop :=
  (inject_Z (- maxTime) <= t)%Q ∧ (t <= inject_Z maxTime)%Q.

(** The numbers from which the attempts compute their retry times are
    within that range.  Attempt [i] of the list (from 0) runs at a valid
    time; it finds the count [a + i] in the row and, when that is below
    [maxRetries], computes the power of two, the delay and the retry time,
    each of them within the range. *)
Definition retryTimesValid (cfg : Config) (a : Z) (attempts : list (Z * PostResult))
    : Prop :=
  ∀ (i : nat) (now : Z) (result : PostResult),
    attempts !! i = Some (now, result) →
    isValidTime (inject_Z now)
    ∧ ((a + Z.of_nat i < maxRetries cfg)%Z →
       isValidTime (Qpower (2 # 1) (a + Z.of_nat i - 1))
       ∧ isValidTime (retryDelayMs cfg (a + Z.of_nat i))
       ∧ isValidTime (inject_Z now + retryDelayMs cfg (a + Z.of_nat i))%Q).

(** The values of the column type INTEGER of [attempt_count]. *)
Definition isInteger (n : Z) : Prop := (-2147483648 ≤ n ∧ n ≤ 2147483647)%Z.

End Attempts.

(** ** Data for the examples of the further properties *)

Module Examples.

(** A transaction that pays an NFT and 2 ADA to [addr1] out of [addr0]. *)
Definition nftTx : ListedTx :=
  {| tx_hash := "T2";
     inputs := Some [{| entry_address := Some "addr0";
                        entry_amount :=
                          Some [Some {| unit_ := "lovelace"; quantity := "3000000" |};
                                Some {| unit_ := "policy.nft"; quantity := "1" |}] |}];
     outputs := Some [{| entry_address := Some "addr1";
                         entry_amount :=
                           Some [Some {| unit_ := "lovelace"; quantity := "2000000" |};
                                 Some {| unit_ := "policy.nft"; quantity := "1" |}] |}] |}.

(** A transaction as the provider lists it: the hash only. *)
Definition bareTx : ListedTx := {| tx_hash := "T3"; inputs := None; outputs := None |}.

(** An output to [addr1] with one good and one unreadable lovelace amount. *)
Definition garbledTx : ListedTx :=
  {| tx_hash := "T4";
     inputs := None;
     outputs := Some [{| entry_address := Some "addr1";
                         entry_amount :=
                           Some [Some {| unit_ := "lovelace"; quantity := "5000000" |};
                                 Some {| unit_ := "lovelace"; quantity := "n/a" |}] |}] |}.


(** A provider that has three metadata items for every transaction, two of
    them with the label ["674"]. *)
Definition labelled : Blockfrost.Client :=
  {| Blockfrost.addressesTransactions := λ _, [];
     Blockfrost.txs := λ txHash,
       {| bf_hash := txHash; bf_block_height := 100; bf_block_time := 1700000000;
          bf_asset_mint_count := None |};
     Blockfrost.txsMetadata := λ _,
       Some [{| label := "674"; json_metadata := "{}" |};
             {| label := "721"; json_metadata := "[]" |};
             {| label := "674"; json_metadata := "1" |}] |}.

End Examples.

(** A table of watched addresses and one of watched contracts. *)

Module CycleExamples.
Import Monitoring.
Definition addressTable : gmap string MonitoredRow :=
  {["a1" := {| mr_address := "addr1"; mr_name := Some "wallet";
               mr_description := None; mr_is_active := true |}]}.

Definition contractTable : gmap string MonitoredRow :=
  {["c1" := {| mr_address := "addr1"; mr_name := None;
               mr_description := None; mr_is_active := true |}]}.
End CycleExamples.

(** Keys and a registration for the examples of the API. *)

Module ApiExamples.
Import Auth Routes.

(** An admin key and a read-only key; the tokens are ["key-1"] and ["key-2"]. *)
Definition keys : gmap string ApiKey :=
  {[ "k1" := {| ak_name := "admin"; ak_key_hash := "placeholder-hash-key-1";
                ak_permissions := ["admin"]; ak_expires_at := None;
                ak_last_used_at := None; ak_is_active := true |};
     "k2" := {| ak_name := "reader"; ak_key_hash := "placeholder-hash-key-2";
                ak_permissions := ["read"]; ak_expires_at := Some 5000;
                ak_last_used_at := None; ak_is_active := true |} ]}.

(** A registration for [token_received]. *)
Definition tokenHook : WebhookBody :=
  {| req_name := Some "tokens"; req_url := Some "https://example.org/t";
     req_secret := Some ""; req_event_types := Some ["token_received"];
     req_headers := None |}.

Definition tokenEvent : NewTransactionEvent :=
  {| ne_tx_hash := "T2"; ne_block_height := Some 7; ne_block_time := Some 7000;
     ne_event_type := TOKEN_RECEIVED;
     ne_event_data := AddressData Scenario.T1 "addr1";
     ne_address_id := Some "a1"; ne_contract_id := None |}.
End ApiExamples.

(** ** The history of a delivery *)

Module History.
(** The same delivery, later: the references and the creation time are
    those of [wd], and no attempt was uncounted. *)
Definition laterOf (wd wd' : WebhookDelivery) : Prop :=
  wd_webhook_id wd' = wd_webhook_id wd
  ∧ wd_event_id wd' = wd_event_id wd
  ∧ wd_created_at wd' = wd_created_at wd
  ∧ (wd_attempt_count wd ≤ wd_attempt_count wd')%Z.
End History.

(** States of the delivery engine for the examples. *)

Module EngineExamples.
Import System.
(** The process stops while the first POST is under way and starts again:
    the database is as it was, no call is in flight. *)
Definition restarted : State := {| db := db Scenario.posted; inflight := [] |}.

(** A delivery whose event is not in the table of events. *)
Definition orphaned : Db :=
  {| transaction_events := ∅;
     webhooks := {["w1" := Scenario.w1]};
     webhook_deliveries := {["0" := Processor.newDelivery "w1" "e1" 1000]};
     journal := [] |}.
End EngineExamples.

(** * Properties *)

(** One iteration of a loop that awaits a database call per element. *)
Lemma mapM_DB_cons {A B} (f : A → DB B) (x : A) (l : list A) (db : Db) :
  mapM f (x :: l) db
  = ((f x db).1 :: (mapM f l (f x db).2).1, (mapM f l (f x db).2).2).
Proof. reflexivity. Qed.

(** ** The classifier *)

Section Classifier.
Import Monitor.

Lemma isMember_Some address l :
  isMember address (Some l) = true ↔ ∃ e, e ∈ l ∧ entry_address e = Some address.
Proof.
  simpl. rewrite existsb_exists. split.
  - intros (e & Hin & He). exists e. split; [by apply list_elem_of_In|].
    unfold entryAt in He. by apply bool_decide_eq_true in He.
  - intros (e & Hin & He). exists e. split; [by apply list_elem_of_In|].
    unfold entryAt. by apply bool_decide_eq_true.
Qed.

Lemma isMember_false address entries :
  (∀ l e, entries = Some l → e ∈ l → entry_address e ≠ Some address) →
  isMember address entries = false.
Proof.
  intros H. destruct entries as [l|]; [|done].
  apply not_true_is_false. intros Hm.
  apply isMember_Some in Hm as (e & Hin & He). by eapply H.
Qed.

(** What [getTransactionInfo] returns always has a [metadata] object and a
    zero [asset_mint_count]. *)
Lemma getTransactionInfo_metadata client txHash :
  is_Some (metadata (Blockfrost.getTransactionInfo client txHash)).
Proof.
  unfold Blockfrost.getTransactionInfo.
  destruct (Blockfrost.txsMetadata client txHash) as [[|item items]|]; simpl; eauto.
Qed.

Lemma getTransactionInfo_asset_mint_count client txHash :
  asset_mint_count (Blockfrost.getTransactionInfo client txHash) = 0.
Proof.
  unfold Blockfrost.getTransactionInfo.
  by destruct (Blockfrost.txsMetadata client txHash) as [[|item items]|].
Qed.

Lemma getTransactionInfo_no_metadata client txHash :
  Blockfrost.txsMetadata client txHash = Some [] →
  metadata (Blockfrost.getTransactionInfo client txHash) = Some ∅.
Proof. unfold Blockfrost.getTransactionInfo. by intros ->. Qed.

(** The classifier alone: METADATA_ADDED is pushed exactly when the detail
    has a [metadata] object, once; TOKEN_MINTED exactly when the detail's
    [asset_mint_count] is positive, after the one CONTRACT_EXECUTED. *)
Lemma metadata_added_iff address tx txInfo :
  METADATA_ADDED ∈ addressEventTypes address tx txInfo ↔ is_Some (metadata txInfo).
Proof.
  unfold addressEventTypes. rewrite !elem_of_app. split.
  - intros [H|[H|H]].
    + exfalso. revert H. repeat case_match; simpl; set_solver.
    + exfalso. revert H. repeat case_match; simpl; set_solver.
    + destruct (metadata txInfo); [eauto|by apply elem_of_nil in H].
  - intros [m ->]. right. right. set_solver.
Qed.

Lemma token_minted_iff txInfo :
  contractEventTypes txInfo
  = CONTRACT_EXECUTED :: (if bool_decide (0 < asset_mint_count txInfo)
                          then [TOKEN_MINTED] else [])
  ∧ (TOKEN_MINTED ∈ contractEventTypes txInfo ↔ 0 < asset_mint_count txInfo).
Proof.
  split; [done|]. unfold contractEventTypes.
  case_bool_decide; simpl; set_solver.
Qed.

Lemma EventType_value_inj (s t : EventType) :
  EventType_value s = EventType_value t → s = t.
Proof. destruct s, t; (reflexivity || discriminate). Qed.

(** What a loop [for (const eventType of ...) await createTransactionEvent]
    does to the table of events: one fresh row per event type, in order,
    of that type and not processed. *)
Lemma createTransactionEvent_each (mk : EventType → NewTransactionEvent) (now : Z)
    (types : list EventType) :
  ∀ db,
    let r := mapM (λ eventType, createTransactionEvent (mk eventType) now) types db in
    webhook_deliveries r.2 = webhook_deliveries db
    ∧ NoDup r.1
    ∧ (∀ id, id ∈ r.1 → transaction_events db !! id = None)
    ∧ (∀ id, id ∉ r.1 → transaction_events r.2 !! id = transaction_events db !! id)
    ∧ Forall2 (λ id eventType,
                 ∃ te, transaction_events r.2 !! id = Some te
                       ∧ te_event_type te = EventType_value (ne_event_type (mk eventType))
                       ∧ te_tx_hash te = ne_tx_hash (mk eventType)
                       ∧ te_processed te = false)
              r.1 types.
Proof.
  induction types as [|ty types IH]; intros db.
  { cbn. repeat split; try done; [constructor|].
    intros id Hid. by apply elem_of_nil in Hid. }
  cbv zeta. rewrite mapM_DB_cons. cbn [fst snd].
  set (id0 := fresh (dom (transaction_events db))).
  assert (Hfresh : transaction_events db !! id0 = None).
  { apply not_elem_of_dom, is_fresh. }
  set (db1 := (createTransactionEvent (mk ty) now db).2).
  change (createTransactionEvent (mk ty) now db).1 with id0.
  assert (Hdb1 : ∃ te, transaction_events db1 = <[id0 := te]> (transaction_events db)
                       ∧ te_event_type te = EventType_value (ne_event_type (mk ty))
                       ∧ te_tx_hash te = ne_tx_hash (mk ty)
                       ∧ te_processed te = false).
  { eexists. split; [reflexivity|]. done. }
  destruct Hdb1 as (te0 & Hdb1 & Hte0).
  destruct (IH db1) as (Hd & Hnd & Hnew & Hold & Hall).
  set (r := mapM (λ eventType, createTransactionEvent (mk eventType) now) types db1) in *.
  assert (Hid0 : id0 ∉ r.1).
  { intros Hin. apply Hnew in Hin. by rewrite Hdb1, lookup_insert_eq in Hin. }
  split; [by rewrite Hd|].
  split. { by constructor. }
  split.
  { intros id [->|Hin]%elem_of_cons; [done|].
    apply Hnew in Hin. rewrite Hdb1 in Hin.
    by apply lookup_insert_None in Hin as [? _]. }
  split.
  { intros id [Hne Hnin]%not_elem_of_cons.
    rewrite Hold, Hdb1 by done. by rewrite lookup_insert_ne. }
  constructor; [|done].
  exists te0. split; [|done]. rewrite Hold, Hdb1 by done. by rewrite lookup_insert_eq.
Qed.

(** The events that one iteration of the loop of [checkAddressTransactions]
    creates for a transaction that is not skipped: one per event type that
    the classifier pushed, in the order of the pushes. *)
Lemma addressTxBody_created client address now c c' tx db :
  admitAddressTx (txKey (ma_id address) (tx_hash tx)) c = Some c' →
  let r := addressTxBody client address now c tx db in
  r.1.1 = c'
  ∧ Forall2 (λ id eventType,
               ∃ te, transaction_events r.2 !! id = Some te
                     ∧ te_event_type te = EventType_value eventType
                     ∧ te_tx_hash te = tx_hash tx
                     ∧ te_processed te = false)
            r.1.2
            (addressEventTypes (ma_address address) tx
               (Blockfrost.getTransactionInfo client (tx_hash tx))).
Proof.
  intros Hc. unfold addressTxBody. rewrite Hc. cbv zeta.
  unfold mbind, DB_bind, mret, DB_ret. cbn [fst snd]. split; [done|].
  by destruct (createTransactionEvent_each
                 (addressEvent address tx (Blockfrost.getTransactionInfo client (tx_hash tx)))
                 now
                 (addressEventTypes (ma_address address) tx
                    (Blockfrost.getTransactionInfo client (tx_hash tx))) db)
    as (_ & _ & _ & _ & Hall).
Qed.

(** C5, at the failing input: a transaction for which the provider has no
    metadata still gets a METADATA_ADDED event, because the detail returned
    by [getTransactionInfo] always carries a [metadata] object (the empty one
    by default) and the classifier tests that object for truthiness.  The
    first part holds for every provider and transaction; the second is the
    run on [T1], whose metadata is empty. *)
Theorem C5_metadata_added_for_empty_metadata :
  (∀ client address tx,
      METADATA_ADDED ∈
        addressEventTypes address tx (Blockfrost.getTransactionInfo client (tx_hash tx)))
  ∧ metadata (Blockfrost.getTransactionInfo Scenario.provider "T1") = Some ∅
  ∧ addressEventTypes "addr1" Scenario.listedT1
      (Blockfrost.getTransactionInfo Scenario.provider "T1")
    = [TRANSACTION_RECEIVED; ADA_RECEIVED; METADATA_ADDED]
  ∧ Scenario.createdEventTypes
      (checkAddressTransactions Scenario.provider Scenario.a1 5 lastProcessedTxs
         Scenario.emptyDb)
    = ["transaction_received"; "ada_received"; "metadata_added"].
Proof.
  split; [|split; [|split]].
  - intros client address tx.
    destruct (getTransactionInfo_metadata client (tx_hash tx)) as [m Hm].
    unfold addressEventTypes. rewrite Hm, !elem_of_app. right. right. set_solver.
  - reflexivity.
  - vm_compute. reflexivity.
  - vm_compute. reflexivity.
Qed.

(** The classification of a transaction as the provider lists it: neither
    side is detected, and the [metadata] object of the detail is there. *)
Lemma addressEventTypes_listed client address tx txHash :
  addressEventTypes address (Listing.listed tx)
    (Blockfrost.getTransactionInfo client txHash)
  = [METADATA_ADDED].
Proof.
  unfold addressEventTypes. cbn [Listing.listed inputs outputs isMember].
  by destruct (getTransactionInfo_metadata client txHash) as [m ->].
Qed.

(** C6, at the failing input: a transaction that pays to the watched address
    gets no TRANSACTION_RECEIVED event.  The classifier looks for the
    address in [tx.outputs] and [tx.inputs] of the element [tx] of the
    provider's listing, which has neither property; the detail that it
    fetches is not read for them.  So for every provider, address and
    transaction, whatever its entries are, the events that the loop body
    creates for the transaction as listed are METADATA_ADDED events, and no
    other row of the table changes.  In the scenario [T1] pays 5000000
    lovelace to [addr1] out of [addr0]: [addr1] is the address of an output
    and of no input, and the one event created for it is [metadata_added].
    Had the element of the listing carried the entries of [T1], as that of
    [Scenario.provider] does, the classifier would have found the address:
    the defect is in what it is given to read. *)
Theorem C6_transaction_received_never_created :
  (∀ client address now c tx db,
      let r := addressTxBody client address now c (Listing.listed tx) db in
      Forall (λ id, transaction_events db !! id = None
                    ∧ ∃ te, transaction_events r.2 !! id = Some te
                            ∧ te_tx_hash te = tx_hash tx
                            ∧ te_event_type te = EventType_value METADATA_ADDED)
             r.1.2
      ∧ (∀ id, id ∉ r.1.2 → transaction_events r.2 !! id = transaction_events db !! id)
      ∧ (∀ id te, transaction_events r.2 !! id = Some te →
                  te_event_type te = EventType_value TRANSACTION_RECEIVED →
                  transaction_events db !! id = Some te))
  ∧ isMember "addr1" (outputs Scenario.listedT1) = true
  ∧ isMember "addr1" (inputs Scenario.listedT1) = false
  ∧ Blockfrost.addressesTransactions Listing.listingProvider "addr1"
    = [Listing.listed Scenario.listedT1]
  ∧ Scenario.createdEventTypes
      (checkAddressTransactions Listing.listingProvider Scenario.a1 5 lastProcessedTxs
         Scenario.emptyDb)
    = ["metadata_added"]
  ∧ Scenario.createdEventTypes
      (checkAddressTransactions Scenario.provider Scenario.a1 5 lastProcessedTxs
         Scenario.emptyDb)
    = ["transaction_received"; "ada_received"; "metadata_added"].
Proof.
  split; [|split; [|split; [|split; [|split]]]].
  - intros client address now c tx db. cbv zeta.
    cut (let r := addressTxBody client address now c (Listing.listed tx) db in
         Forall (λ id, transaction_events db !! id = None
                       ∧ ∃ te, transaction_events r.2 !! id = Some te
                               ∧ te_tx_hash te = tx_hash tx
                               ∧ te_event_type te = EventType_value METADATA_ADDED)
                r.1.2
         ∧ ∀ id, id ∉ r.1.2 → transaction_events r.2 !! id = transaction_events db !! id).
    { cbv zeta. intros [Hcreated Hold]. split; [done|]. split; [done|].
      intros id te Hlk Hty.
      destruct (decide (id ∈ (addressTxBody client address now c (Listing.listed tx) db).1.2))
        as [Hin|Hnin]; [|by rewrite <- Hold].
      rewrite Forall_forall in Hcreated.
      destruct (Hcreated id Hin) as (_ & te' & Hlk' & _ & Hty').
      rewrite Hlk in Hlk'. injection Hlk' as <-. rewrite Hty in Hty'. discriminate. }
    cbv zeta. unfold addressTxBody.
    destruct (admitAddressTx _ c) as [c'|].
    + cbv zeta. unfold mbind, DB_bind, mret, DB_ret. cbn [fst snd].
      rewrite addressEventTypes_listed.
      destruct (createTransactionEvent_each
                  (addressEvent address (Listing.listed tx)
                     (Blockfrost.getTransactionInfo client (tx_hash (Listing.listed tx))))
                  now [METADATA_ADDED] db)
        as (_ & _ & Hnew & Hold & Hall).
      split; [|exact Hold].
      apply Forall_forall. intros id Hin. split; [by apply Hnew|].
      apply list_elem_of_lookup in Hin as [j Hj].
      destruct (Forall2_lookup_l _ _ _ _ _ Hall Hj) as (ty & Hty & te & Hlk & Htype & Hhash & _).
      apply list_elem_of_lookup_2, list_elem_of_singleton in Hty as ->.
      by exists te.
    + unfold mret, DB_ret. cbn [fst snd]. split; [constructor|done].
  - reflexivity.
  - reflexivity.
  - reflexivity.
  - vm_compute. reflexivity.
  - vm_compute. reflexivity.
Qed.

(** C7, at the failing input: the detail that [getTransactionInfo] returns
    has [asset_mint_count] 0 whatever the provider answered, so the contract
    classifier creates CONTRACT_EXECUTED alone; for [T1], whose answer says
    that one asset was minted, no TOKEN_MINTED event is created. *)
Theorem C7_token_minted_never_created :
  (∀ client txHash,
      contractEventTypes (Blockfrost.getTransactionInfo client txHash)
      = [CONTRACT_EXECUTED])
  ∧ bf_asset_mint_count (Blockfrost.txs Scenario.provider "T1") = Some 1
  ∧ Scenario.createdEventTypes
      (checkContractTransactions Scenario.provider Scenario.c1 5 lastProcessedTxs
         Scenario.emptyDb)
    = ["contract_executed"].
Proof.
  split; [|split].
  - intros client txHash. unfold contractEventTypes.
    by rewrite getTransactionInfo_asset_mint_count.
  - reflexivity.
  - vm_compute. reflexivity.
Qed.

End Classifier.

(** ** The dedup cache *)

Section DedupCache.
Import Monitor.

Lemma admitAddressTx_seen key c :
  key ∈ addresses c → admitAddressTx key c = None.
Proof. intros H. unfold admitAddressTx. by rewrite bool_decide_eq_true_2. Qed.






(** The cache that [checkAddressTransactions] leaves is the one of
    [dedupRun] over the keys of the listed transactions. *)
Lemma forEachTx_address_cache client address now transactions :
  ∀ c db,
    (forEachTx (addressTxBody client address now) c transactions db).1.1
    = (dedupRun admitAddressTx c
         ((λ tx, txKey (ma_id address) (tx_hash tx)) <$> transactions)).2.
Proof.
  induction transactions as [|tx rest IH]; intros c db; [done|].
  cbn [forEachTx fmap list_fmap dedupRun].
  unfold mbind, DB_bind, mret, DB_ret. cbn [fst snd]. rewrite IH.
  unfold addressTxBody.
  destruct (admitAddressTx (txKey (ma_id address) (tx_hash tx)) c); done.
Qed.




End DedupCache.

(** ** The retry schedule *)

Section RetrySchedule.
Import Processor.

(** [new Date] does not depend on how the time value is written as a
    fraction. *)
Lemma newDate_proper (q r : Q) : (q == r)%Q → newDate q = newDate r.
Proof.
  destruct q as [a b], r as [c d]. unfold Qeq, newDate. simpl. intros H.
  rewrite <- (Z.quot_mul_cancel_r a (Z.pos b) (Z.pos d)) by lia.
  rewrite <- (Z.quot_mul_cancel_r c (Z.pos d) (Z.pos b)) by lia.
  rewrite H. f_equal. lia.
Qed.

Lemma newDate_inject_Z (z : Z) : newDate (inject_Z z) = z.
Proof. unfold newDate. simpl. apply Z.quot_1_r. Qed.

(** From the second attempt on (the row loaded at the start of the attempt
    has [attempt_count] >= 1) the delay is an integer. *)
Lemma nextRetryAt_pos (cfg : Config) (now : Z) (k : positive) :
  newDate (inject_Z now + retryDelayMs cfg (Z.pos k))%Q
  = now + retryDelay cfg * 2 ^ (Z.pos k - 1).
Proof.
  rewrite <- (newDate_inject_Z (now + retryDelay cfg * 2 ^ (Z.pos k - 1))).
  apply newDate_proper. unfold retryDelayMs.
  rewrite inject_Z_plus, inject_Z_mult.
  rewrite (Zpower_Qpower 2 (Z.pos k - 1)) by lia. reflexivity.
Qed.

(** For a row with [attempt_count] 0 the factor is [2^(-1)]: half the base
    delay. *)
Lemma nextRetryAt_zero (cfg : Config) (now : Z) :
  newDate (inject_Z now + retryDelayMs cfg 0)%Q = Z.quot (2 * now + retryDelay cfg) 2.
Proof.
  transitivity (newDate ((2 * now + retryDelay cfg) # 2)); [|reflexivity].
  apply newDate_proper. unfold retryDelayMs, Qeq. simpl. lia.
Qed.

End RetrySchedule.

(** ** The subscription matcher *)

Section Matcher.
Import Processor.

(** What the loop [for (const webhook of webhooks) await
    queueWebhookDelivery(webhook, event)] does to the database. *)
Lemma queueWebhookDelivery_all (ev : string * TransactionEvent) (now : Z)
    (ws : list (string * Webhook)) :
  ∀ db,
    let r := mapM (λ webhook, queueWebhookDelivery webhook ev now) ws db in
    transaction_events r.2 = transaction_events db
    ∧ webhooks r.2 = webhooks db
    ∧ journal r.2 = journal db ++ (InsertWebhookDelivery <$> r.1)
    ∧ NoDup r.1
    ∧ (∀ id, id ∈ r.1 → webhook_deliveries db !! id = None)
    ∧ (∀ id, id ∉ r.1 → webhook_deliveries r.2 !! id = webhook_deliveries db !! id)
    ∧ Forall2 (λ id (w : string * Webhook),
                 webhook_deliveries r.2 !! id = Some (newDelivery w.1 ev.1 now))
              r.1 ws.
Proof.
  induction ws as [|w ws IH]; intros db.
  { cbn. rewrite app_nil_r. repeat split; try done.
    - constructor.
    - intros id Hid. by apply elem_of_nil in Hid. }
  cbv zeta. rewrite mapM_DB_cons. cbn [fst snd].
  set (id0 := fresh (dom (webhook_deliveries db))).
  assert (Hfresh : webhook_deliveries db !! id0 = None).
  { apply not_elem_of_dom, is_fresh. }
  set (db1 := (queueWebhookDelivery w ev now db).2).
  assert (Hdb1 : webhook_deliveries db1
                 = <[id0 := newDelivery w.1 ev.1 now]> (webhook_deliveries db)) by done.
  change (queueWebhookDelivery w ev now db).1 with id0.
  destruct (IH db1) as (He & Hw & Hj & Hnd & Hnew & Hold & Hall).
  set (r := mapM (λ webhook, queueWebhookDelivery webhook ev now) ws db1) in *.
  assert (Hid0 : id0 ∉ r.1).
  { intros Hin. apply Hnew in Hin. by rewrite Hdb1, lookup_insert_eq in Hin. }
  split; [by rewrite He|]. split; [by rewrite Hw|].
  split. { rewrite Hj. cbn. by rewrite <- app_assoc. }
  split. { by constructor. }
  split.
  { intros id [->|Hin]%elem_of_cons; [done|].
    apply Hnew in Hin. rewrite Hdb1 in Hin.
    by apply lookup_insert_None in Hin as [? _]. }
  split.
  { intros id [Hne Hnin]%not_elem_of_cons.
    rewrite Hold, Hdb1 by done. by rewrite lookup_insert_ne. }
  constructor; [|done].
  rewrite Hold, Hdb1 by done. by rewrite lookup_insert_eq.
Qed.

(** [processEvent] on an event that exists, query by query. *)
Lemma processEvent_found (eventId : string) (now : Z) (db : Db) (event : TransactionEvent) :
  transaction_events db !! eventId = Some event →
  processEvent eventId now db
  = let db1 := logged (SelectTransactionEvent eventId) db in
    let db2 := (updateProcessed eventId db1).2 in
    let ws := (selectMatchingWebhooks (te_event_type event) db2).1 in
    let db3 := (selectMatchingWebhooks (te_event_type event) db2).2 in
    match ws with
    | [] => ([], db3)
    | _ => mapM (λ webhook, queueWebhookDelivery webhook (eventId, event) now) ws db3
    end.
Proof.
  intros H. unfold processEvent, mbind, DB_bind. cbn [selectTransactionEvent fst snd].
  rewrite H. cbn. by destruct (filter _ _).
Qed.

Lemma alter_markProcessed (m : gmap string TransactionEvent) eventId event :
  m !! eventId = Some event →
  alter markProcessed eventId m = <[eventId := markProcessed event]> m.
Proof.
  intros H. apply map_eq. intros i. destruct (decide (i = eventId)) as [->|Hne].
  - by rewrite lookup_alter_eq, lookup_insert_eq, H.
  - by rewrite lookup_alter_ne, lookup_insert_ne.
Qed.

(** The summary of [processEvent] used below: the webhooks matched, and the
    effect on each table and on the journal. *)
Lemma processEvent_spec (eventId : string) (now : Z) (db : Db) (event : TransactionEvent) :
  transaction_events db !! eventId = Some event →
  let r := processEvent eventId now db in
  let ws := filter (λ w : string * Webhook, matchesEvent (te_event_type event) w.2)
              (map_to_list (webhooks db)) in
  transaction_events r.2 = <[eventId := markProcessed event]> (transaction_events db)
  ∧ webhooks r.2 = webhooks db
  ∧ journal r.2
    = journal db
      ++ [SelectTransactionEvent eventId; UpdateTransactionEventProcessed eventId;
          SelectMatchingWebhooks (te_event_type event)]
      ++ (InsertWebhookDelivery <$> r.1)
  ∧ NoDup r.1
  ∧ (∀ id, id ∈ r.1 → webhook_deliveries db !! id = None)
  ∧ (∀ id, id ∉ r.1 → webhook_deliveries r.2 !! id = webhook_deliveries db !! id)
  ∧ Forall2 (λ id (w : string * Webhook),
               webhook_deliveries r.2 !! id = Some (newDelivery w.1 eventId now))
            r.1 ws.
Proof.
  intros H. cbv zeta. rewrite (processEvent_found _ _ _ _ H). cbv zeta.
  set (db1 := logged (SelectTransactionEvent eventId) db).
  set (db2 := (updateProcessed eventId db1).2).
  set (db3 := (selectMatchingWebhooks (te_event_type event) db2).2).
  change (selectMatchingWebhooks (te_event_type event) db2).1
    with (filter (λ w : string * Webhook, matchesEvent (te_event_type event) w.2)
            (map_to_list (webhooks db))).
  set (ws := filter _ _).
  assert (He3 : transaction_events db3
                = <[eventId := markProcessed event]> (transaction_events db)).
  { cbn. by apply alter_markProcessed. }
  assert (Hj3 : journal db3
                = journal db ++ [SelectTransactionEvent eventId;
                                 UpdateTransactionEventProcessed eventId;
                                 SelectMatchingWebhooks (te_event_type event)]).
  { cbn. by rewrite <- !app_assoc. }
  destruct (queueWebhookDelivery_all (eventId, event) now ws db3)
    as (He & Hw & Hj & Hnd & Hnew & Hold & Hall).
  assert (Heq : match ws with
                | [] => ([], db3)
                | _ => mapM (λ webhook, queueWebhookDelivery webhook (eventId, event) now)
                         ws db3
                end
                = mapM (λ webhook, queueWebhookDelivery webhook (eventId, event) now) ws db3)
    by by destruct ws.
  rewrite Heq.
  split; [by rewrite He|]. split; [by rewrite Hw|].
  split; [by rewrite Hj, Hj3, <- app_assoc|]. done.
Qed.

End Matcher.

Section MatcherClaims.
Import Processor.

Lemma matching_webhooks_NoDup (event_type : string) (db : Db) :
  NoDup (filter (λ w : string * Webhook, matchesEvent event_type w.2)
           (map_to_list (webhooks db))).*1.
Proof.
  apply (sublist_NoDup _ ((map_to_list (webhooks db)).*1)).
  - apply NoDup_fst_map_to_list.
  - apply fmap_sublist, sublist_filter.
Qed.

Lemma matching_webhooks_none (event_type : string) (db : Db) :
  (∀ wid w, webhooks db !! wid = Some w → ¬ matchesEvent event_type w) →
  filter (λ w : string * Webhook, matchesEvent event_type w.2)
    (map_to_list (webhooks db)) = [].
Proof.
  intros Hnone.
  destruct (filter _ _) as [|[wid w] l] eqn:Hf; [done|].
  assert (Hin : (wid, w) ∈ filter (λ w : string * Webhook, matchesEvent event_type w.2)
                  (map_to_list (webhooks db))) by (rewrite Hf; left).
  apply list_elem_of_filter in Hin as [Hm Hin].
  apply elem_of_map_to_list in Hin. by destruct (Hnone wid w).
Qed.

(** C8: for an event that is in the store, [processEvent] creates, for each
    active webhook whose [event_types] contain the type of the event, exactly
    one delivery, with status PENDING and [attempt_count] 0; it creates no
    other delivery and changes none; when no active webhook matches, the
    table of deliveries is unchanged. *)
Theorem C8_one_pending_delivery_per_matching_webhook
    (db : Db) (eventId : string) (event : TransactionEvent) (now : Z) :
  transaction_events db !! eventId = Some event →
  let r := processEvent eventId now db in
  (∀ wid w, webhooks db !! wid = Some w →
      w_is_active w = true → te_event_type event ∈ w_event_types w →
      ∃ id, id ∈ r.1
            ∧ webhook_deliveries db !! id = None
            ∧ webhook_deliveries r.2 !! id = Some (newDelivery wid eventId now)
            ∧ ∀ id' wd, id' ∈ r.1 → webhook_deliveries r.2 !! id' = Some wd →
                        wd_webhook_id wd = wid → id' = id)
  ∧ (∀ id, id ∈ r.1 →
      ∃ wid w, webhooks db !! wid = Some w
               ∧ w_is_active w = true ∧ te_event_type event ∈ w_event_types w
               ∧ webhook_deliveries db !! id = None
               ∧ webhook_deliveries r.2 !! id = Some (newDelivery wid eventId now))
  ∧ (∀ id, id ∉ r.1 → webhook_deliveries r.2 !! id = webhook_deliveries db !! id)
  ∧ (∀ wid, wd_status (newDelivery wid eventId now) = PENDING
            ∧ wd_attempt_count (newDelivery wid eventId now) = 0
            ∧ wd_webhook_id (newDelivery wid eventId now) = wid
            ∧ wd_event_id (newDelivery wid eventId now) = eventId)
  ∧ ((∀ wid w, webhooks db !! wid = Some w →
        ¬ (w_is_active w = true ∧ te_event_type event ∈ w_event_types w)) →
     r.1 = [] ∧ webhook_deliveries r.2 = webhook_deliveries db).
Proof.
  intros H r.
  destruct (processEvent_spec eventId now db event H)
    as (_ & _ & _ & Hnd & Hnew & Hold & Hall).
  fold r in Hnd, Hnew, Hold, Hall.
  set (ws := filter (λ w : string * Webhook, matchesEvent (te_event_type event) w.2)
               (map_to_list (webhooks db))) in *.
  split; [|split; [|split; [|split]]].
  - intros wid w Hw Hact Hty.
    assert (Hin : (wid, w) ∈ ws).
    { apply list_elem_of_filter. split; [by split|]. by apply elem_of_map_to_list. }
    apply list_elem_of_lookup in Hin as [j Hj].
    destruct (Forall2_lookup_r _ _ _ _ _ Hall Hj) as (id & Hid & Hlk).
    exists id. split; [by eapply list_elem_of_lookup_2|].
    split; [eapply Hnew; by eapply list_elem_of_lookup_2|]. split; [done|].
    intros id' wd Hin' Hlk' Hwid.
    apply list_elem_of_lookup in Hin' as [j' Hj'].
    destruct (Forall2_lookup_l _ _ _ _ _ Hall Hj') as ([wid' w'] & Hws' & Hlk'').
    rewrite Hlk' in Hlk''. injection Hlk'' as ->. simpl in Hwid. subst wid'.
    assert (j = j') as <-.
    { eapply (NoDup_lookup (ws.*1)); [apply matching_webhooks_NoDup| |].
      - by rewrite list_lookup_fmap, Hj.
      - by rewrite list_lookup_fmap, Hws'. }
    congruence.
  - intros id Hin. apply list_elem_of_lookup in Hin as [j Hj].
    destruct (Forall2_lookup_l _ _ _ _ _ Hall Hj) as ([wid w] & Hws & Hlk).
    apply list_elem_of_lookup_2, list_elem_of_filter in Hws as [[Hact Hty] Hw].
    apply elem_of_map_to_list in Hw. exists wid, w.
    repeat split; try done. eapply Hnew. by eapply list_elem_of_lookup_2.
  - done.
  - done.
  - intros Hnone.
    assert (Hws : ws = []) by by apply matching_webhooks_none.
    rewrite Hws in Hall. apply Forall2_nil_inv_r in Hall.
    split; [done|]. apply map_eq. intros id. apply Hold. rewrite Hall. apply not_elem_of_nil.
Qed.

Lemma C8_one_pending_delivery_per_matching_webhook_witness :
  ∃ id, id ∈ (processEvent "e1" 1000 Scenario.db0).1
        ∧ webhook_deliveries Scenario.db0 !! id = None
        ∧ webhook_deliveries (processEvent "e1" 1000 Scenario.db0).2 !! id
          = Some (newDelivery "w1" "e1" 1000)
        ∧ ∀ id' wd, id' ∈ (processEvent "e1" 1000 Scenario.db0).1 →
            webhook_deliveries (processEvent "e1" 1000 Scenario.db0).2 !! id' = Some wd →
            wd_webhook_id wd = "w1" → id' = id.
Proof.
  apply (proj1 (C8_one_pending_delivery_per_matching_webhook
                  Scenario.db0 "e1" Scenario.e1 1000 eq_refl) "w1" Scenario.w1).
  - reflexivity.
  - reflexivity.
  - apply list_elem_of_here.
Defined.

(** C10: for an event that is in the store, [processEvent] sets its
    [processed] flag before it looks for webhooks: the journal of the
    database shows the update between the SELECT of the event and the
    matching query, which the inserts of the deliveries follow.  The update
    does not depend on the match: the events after the call are those before
    it with this event's [processed] set and its other fields as they were;
    when no active webhook matches, no delivery is created and the event
    is processed all the same. *)
Theorem C10_processed_set_before_matching
    (db : Db) (eventId : string) (event : TransactionEvent) (now : Z) :
  transaction_events db !! eventId = Some event →
  let r := processEvent eventId now db in
  transaction_events r.2 = <[eventId := markProcessed event]> (transaction_events db)
  ∧ (te_processed (markProcessed event) = true
     ∧ te_tx_hash (markProcessed event) = te_tx_hash event
     ∧ te_block_height (markProcessed event) = te_block_height event
     ∧ te_block_time (markProcessed event) = te_block_time event
     ∧ te_event_type (markProcessed event) = te_event_type event
     ∧ te_event_data (markProcessed event) = te_event_data event
     ∧ te_address_id (markProcessed event) = te_address_id event
     ∧ te_contract_id (markProcessed event) = te_contract_id event
     ∧ te_created_at (markProcessed event) = te_created_at event)
  ∧ journal r.2
    = journal db
      ++ [SelectTransactionEvent eventId; UpdateTransactionEventProcessed eventId;
          SelectMatchingWebhooks (te_event_type event)]
      ++ (InsertWebhookDelivery <$> r.1)
  ∧ ((∀ wid w, webhooks db !! wid = Some w →
        ¬ (w_is_active w = true ∧ te_event_type event ∈ w_event_types w)) →
     r.1 = []
     ∧ webhook_deliveries r.2 = webhook_deliveries db
     ∧ transaction_events r.2 !! eventId = Some (markProcessed event)).
Proof.
  intros H r.
  destruct (processEvent_spec eventId now db event H)
    as (He & _ & Hj & _ & _ & Hold & Hall).
  fold r in He, Hj, Hold, Hall.
  split; [done|]. split; [done|]. split; [done|].
  intros Hnone.
  rewrite (matching_webhooks_none _ _ Hnone) in Hall. apply Forall2_nil_inv_r in Hall.
  split; [done|]. split.
  - apply map_eq. intros id. apply Hold. rewrite Hall. apply not_elem_of_nil.
  - by rewrite He, lookup_insert_eq.
Qed.

Lemma C10_processed_set_before_matching_witness :
  (processEvent "e1" 1000 Scenario.unsubscribed).1 = []
  ∧ webhook_deliveries (processEvent "e1" 1000 Scenario.unsubscribed).2
    = webhook_deliveries Scenario.unsubscribed
  ∧ transaction_events (processEvent "e1" 1000 Scenario.unsubscribed).2 !! "e1"
    = Some (markProcessed Scenario.e1).
Proof.
  apply (proj2 (proj2 (proj2 (C10_processed_set_before_matching
                                Scenario.unsubscribed "e1" Scenario.e1 1000 eq_refl)))).
  intros wid w Hw [_ Hty].
  unfold Scenario.unsubscribed in Hw; cbn [webhooks] in Hw.
  apply lookup_singleton_Some in Hw as [_ <-].
  cbn in Hty. apply list_elem_of_singleton in Hty. discriminate Hty.
Defined.

End MatcherClaims.

(** ** The delivery engine *)

Section Engine.
Import Processor.

(** One uninterrupted attempt that the endpoint rejects: the decision to
    retry and the delay are computed from the row loaded before the update
    that counts the attempt. *)
Lemma deliverWebhook_rejected (cfg : Config) (deliveryId : string) (now : Z)
    (response : option (Z * option string)) (message : option string) (db : Db)
    (wd : WebhookDelivery) (w : Webhook) (te : TransactionEvent) :
  webhook_deliveries db !! deliveryId = Some wd →
  webhooks db !! wd_webhook_id wd = Some w →
  transaction_events db !! wd_event_id wd = Some te →
  let statusCode := match response with Some (status, _) => status | None => 0 end in
  let responseBody := match response with Some (_, Some data) => Some data | _ => message end in
  webhook_deliveries (deliverWebhook cfg deliveryId now (Rejected response message) db).2
    !! deliveryId
  = Some (if bool_decide (wd_attempt_count wd < maxRetries cfg)
          then retrying statusCode responseBody
                 (newDate (inject_Z now + retryDelayMs cfg (wd_attempt_count wd))%Q)
                 (inProgress wd)
          else completed MAX_RETRIES_EXCEEDED statusCode responseBody now (inProgress wd)).
Proof.
  intros Hwd Hw Hte. cbv zeta.
  unfold deliverWebhook, mbind, DB_bind. cbn [selectDelivery fst snd].
  rewrite Hwd. cbn [mbind option_bind]. rewrite Hw. cbn [mbind option_bind].
  rewrite Hte. cbn [mbind option_bind]. cbn [updateInProgress fst snd].
  unfold recordResult. cbn [delivery].
  case_bool_decide; cbn; by rewrite !lookup_alter_eq, Hwd.
Qed.

(** C1, at the failing input: the first attempt of a fresh delivery fails.
    With the defaults ([retryDelay] 30000) the retry is scheduled 15000 ms
    after the failure, whenever that is, not 30000 ms: the exponent is taken
    from the row as loaded, whose [attempt_count] is still 0.  In the run of
    the scenario the delays after the failed attempts 1, 2 and 3 (at times
    2000, 62000, 122000) are 15000, 30000 and 60000.  In general a row
    loaded with [attempt_count] k >= 1, that is attempt k + 1, gives the
    delay [retryDelay * 2^(k-1)]. *)
Theorem C1_retry_delay_is_halved :
  (∀ now, wd_next_retry_at
            <$> webhook_deliveries
                  (deliverWebhook config "0" now Scenario.http500 Scenario.queued).2 !! "0"
          = Some (Some (now + 15000)))
  ∧ wd_next_retry_at <$> webhook_deliveries (Scenario.failures config 1) !! "0"
    = Some (Some (2000 + 15000))
  ∧ wd_next_retry_at <$> webhook_deliveries (Scenario.failures config 2) !! "0"
    = Some (Some (62000 + 30000))
  ∧ wd_next_retry_at <$> webhook_deliveries (Scenario.failures config 3) !! "0"
    = Some (Some (122000 + 60000))
  ∧ wd_attempt_count <$> webhook_deliveries (Scenario.failures config 3) !! "0"
    = Some 3
  ∧ (∀ cfg now (k : positive),
       newDate (inject_Z now + retryDelayMs cfg (Z.pos k))%Q
       = now + retryDelay cfg * 2 ^ (Z.pos k - 1)).
Proof.
  split; [|repeat split; try (vm_compute; reflexivity); apply nextRetryAt_pos].
  intros now. unfold Scenario.http500.
  rewrite (deliverWebhook_rejected config "0" now _ _ Scenario.queued
             (newDelivery "w1" "e1" 1000) Scenario.w1 (markProcessed Scenario.e1))
    by (vm_compute; reflexivity).
  cbn [fmap option_fmap option_map newDelivery wd_attempt_count config maxRetries].
  rewrite bool_decide_eq_true_2 by lia. cbn [retrying wd_next_retry_at].
  rewrite nextRetryAt_zero. cbn [config retryDelay].
  replace (2 * now + 30000) with ((now + 15000) * 2) by lia.
  by rewrite Z.quot_mul by lia.
Qed.

(** C2, at the failing input: with the defaults ([maxRetries] 5), after
    exactly five failed attempts the delivery is RETRYING, with a retry
    time, and the sweeper selects it again when that time has come; it is
    the sixth failed attempt that ends in MAX_RETRIES_EXCEEDED, with the
    completion time set and [next_retry_at] still holding the time of the
    last retry. *)
Theorem C2_five_failures_still_retrying :
  wd_status <$> webhook_deliveries (Scenario.failures config 5) !! "0" = Some RETRYING
  ∧ wd_attempt_count <$> webhook_deliveries (Scenario.failures config 5) !! "0" = Some 5
  ∧ wd_next_retry_at <$> webhook_deliveries (Scenario.failures config 5) !! "0"
    = Some (Some 482000)
  ∧ wd_completed_at <$> webhook_deliveries (Scenario.failures config 5) !! "0"
    = Some None
  ∧ (processWebhookQueue 482000 (Scenario.failures config 5)).1 = ["0"]
  ∧ wd_status <$> webhook_deliveries (Scenario.failures config 6) !! "0"
    = Some MAX_RETRIES_EXCEEDED
  ∧ wd_completed_at <$> webhook_deliveries (Scenario.failures config 6) !! "0"
    = Some (Some 302000)
  ∧ wd_next_retry_at <$> webhook_deliveries (Scenario.failures config 6) !! "0"
    = Some (Some 482000)
  ∧ (processWebhookQueue 1000000 (Scenario.failures config 6)).1 = [].
Proof. repeat split; vm_compute; reflexivity. Qed.

End Engine.

(** ** The running system *)

Section Running.
Import Processor System.

Lemma list_elem_of_insert_inv {A} (l : list A) (i : nat) (x y : A) :
  y ∈ <[i := x]> l → y = x ∨ y ∈ l.
Proof.
  intros [j Hj]%list_elem_of_lookup.
  apply list_lookup_insert_Some in Hj as [(-> & -> & _)|[_ Hj]]; [by left|].
  right. by eapply list_elem_of_lookup_2.
Qed.

Lemma advance_step (cfg : Config) (i : nat) (now : Z) (result : PostResult) (st : State) :
  is_Some (inflight st !! i) → step cfg st (advance cfg i now result st).
Proof.
  intros [t Ht]. unfold advance. rewrite Ht. destruct t; by constructor.
Qed.

(** The deliveries after [processEvent]: the new ones are fresh and
    pending, the others are as before. *)
Lemma processEvent_deliveries (eventId : string) (now : Z) (db : Db) :
  let r := processEvent eventId now db in
  (∀ id, id ∈ r.1 →
     webhook_deliveries db !! id = None
     ∧ ∃ wid, webhook_deliveries r.2 !! id = Some (newDelivery wid eventId now))
  ∧ (∀ id, id ∉ r.1 → webhook_deliveries r.2 !! id = webhook_deliveries db !! id).
Proof.
  destruct (transaction_events db !! eventId) as [event|] eqn:H.
  - destruct (processEvent_spec eventId now db event H)
      as (_ & _ & _ & _ & Hnew & Hold & Hall).
    cbv zeta. split; [|done].
    intros id Hin. split; [by apply Hnew|].
    apply list_elem_of_lookup in Hin as [j Hj].
    destruct (Forall2_lookup_l _ _ _ _ _ Hall Hj) as (w & _ & Hlk). by exists w.1.
  - assert (Hr : processEvent eventId now db
                 = ([], logged (SelectTransactionEvent eventId) db)).
    { unfold processEvent, mbind, DB_bind. cbn [selectTransactionEvent fst snd].
      by rewrite H. }
    cbv zeta. rewrite Hr. split; [|done].
    intros id Hin. by apply elem_of_nil in Hin.
Qed.

(** The sweeper selects deliveries that are pending, or retrying and due. *)
Lemma processWebhookQueue_due (now : Z) (db : Db) (id : string) :
  id ∈ (processWebhookQueue now db).1 →
  ∃ wd, webhook_deliveries db !! id = Some wd ∧ isDue now wd = true.
Proof.
  cbn [processWebhookQueue fst]. intros Hin.
  apply elem_of_take in Hin as (j & Hj & _).
  apply list_elem_of_lookup_2, list_elem_of_fmap in Hj as ([id' wd] & -> & Hin).
  apply list_elem_of_filter in Hin as [Hdue Hin].
  apply elem_of_map_to_list in Hin. exists wd. split; [done|].
  by apply Is_true_true.
Qed.

Lemma isDue_not_terminal (now : Z) (wd : WebhookDelivery) :
  isDue now wd = true → ¬ terminal (wd_status wd).
Proof.
  unfold isDue, terminal. by destruct (wd_status wd); cbn; intros ? [?|[?|?]].
Qed.

(** The update that records the end of an attempt rewrites the one row of
    the delivery, and when it sets RETRYING it sets the retry time. *)
Lemma recordResult_deliveries (cfg : Config) (deliveryId : string) (row : DeliveryRow)
    (now : Z) (result : PostResult) (db : Db) :
  ∃ f, webhook_deliveries (recordResult cfg deliveryId row now result db).2
       = alter f deliveryId (webhook_deliveries db)
       ∧ ∀ wd, wd_status (f wd) = RETRYING → is_Some (wd_next_retry_at (f wd)).
Proof.
  destruct result as [status data|response message|message]; cbn [recordResult].
  - eexists. split; [reflexivity|]. intros wd. cbn. discriminate.
  - case_bool_decide; (eexists; split; [reflexivity|]); intros wd; cbn; [eauto|discriminate].
  - eexists. split; [reflexivity|]. intros wd. cbn. discriminate.
Qed.

Lemma retryingScheduled_alter (f : WebhookDelivery → WebhookDelivery)
    (deliveryId : string) (m : gmap string WebhookDelivery) :
  (∀ wd, wd_status (f wd) = RETRYING → is_Some (wd_next_retry_at (f wd))) →
  retryingScheduled m → retryingScheduled (alter f deliveryId m).
Proof.
  intros Hf Hm id wd Hlk Hst. destruct (decide (id = deliveryId)) as [->|Hne].
  - rewrite lookup_alter_eq in Hlk.
    destruct (m !! deliveryId) as [wd0|]; [|done]. injection Hlk as <-. by apply Hf.
  - rewrite lookup_alter_ne in Hlk by done. by eapply Hm.
Qed.

Lemma retryingScheduled_step (cfg : Config) (st st' : State) :
  step cfg st st' →
  retryingScheduled (webhook_deliveries (db st)) →
  retryingScheduled (webhook_deliveries (db st')).
Proof.
  intros Hstep Hinv. destruct Hstep; cbn [db doCreateEvent doProcessEvent doSweep
    doSelect doInProgress doResult doCatch]; try done.
  - destruct (processEvent_deliveries eventId now (db st)) as [Hnew Hold].
    intros id wd Hlk Hst.
    destruct (decide (id ∈ (processEvent eventId now (db st)).1)) as [Hin|Hnin].
    + destruct (Hnew id Hin) as (_ & wid & Hlk'). rewrite Hlk in Hlk'.
      injection Hlk' as ->. discriminate Hst.
    + rewrite Hold in Hlk by done. by eapply Hinv.
  - apply retryingScheduled_alter; [|done]. intros wd. cbn. discriminate.
  - destruct (recordResult_deliveries cfg deliveryId row now result (db st))
      as (f & -> & Hf).
    by apply retryingScheduled_alter.
  - apply retryingScheduled_alter; [|done]. intros wd. cbn. discriminate.
Qed.

(** C3, as the code has it: in every state that the system reaches, a
    delivery whose status is RETRYING has a [next_retry_at]; and a delivery
    is created PENDING with [next_retry_at] already set, to the time of its
    creation. *)
Theorem C3_retrying_has_next_retry_at (cfg : Config) (st st' : State) :
  initial st → rtc (step cfg) st st' →
  (∀ id wd, webhook_deliveries (db st') !! id = Some wd →
            wd_status wd = RETRYING → is_Some (wd_next_retry_at wd))
  ∧ (∀ webhook event now db0,
       let r := queueWebhookDelivery webhook event now db0 in
       ∃ wd, webhook_deliveries r.2 !! r.1 = Some wd
             ∧ wd_status wd = PENDING ∧ wd_next_retry_at wd = Some now).
Proof.
  intros [Hempty _] Hrun. split.
  - assert (Hinv : retryingScheduled (webhook_deliveries (db st))).
    { intros id wd Hlk. by rewrite Hempty in Hlk. }
    clear Hempty. induction Hrun as [|st1 st2 st3 Hstep _ IH]; [done|].
    apply IH. by eapply retryingScheduled_step.
  - intros webhook event now db0. exists (newDelivery webhook.1 event.1 now).
    split; [|done]. cbn. by rewrite lookup_insert_eq.
Qed.

Lemma rejected_reachable : rtc (step config) Scenario.st0 Scenario.rejected.
Proof.
  eapply rtc_l; [apply (step_processEvent config Scenario.st0 "e1" 1000)|].
  eapply rtc_l; [apply (advance_step config 0 0 Scenario.http200); vm_compute; eauto|].
  eapply rtc_l; [apply (advance_step config 0 0 Scenario.http200); vm_compute; eauto|].
  eapply rtc_l; [apply (advance_step config 0 2000 Scenario.http500); vm_compute; eauto|].
  apply rtc_refl.
Qed.

Lemma C3_retrying_has_next_retry_at_witness :
  Scenario.statusOf Scenario.rejected = Some RETRYING
  ∧ ∀ wd, webhook_deliveries (db Scenario.rejected) !! "0" = Some wd →
          wd_status wd = RETRYING → is_Some (wd_next_retry_at wd).
Proof.
  split; [vm_compute; reflexivity|].
  apply (proj1 (C3_retrying_has_next_retry_at config Scenario.st0 Scenario.rejected
                  (conj eq_refl eq_refl) rejected_reachable)).
Defined.

(** C3 as stated fails: the delivery that [processEvent] has just created is
    PENDING and its [next_retry_at] is not null. *)
Lemma C3_counterexample :
  initial Scenario.st0
  ∧ step config Scenario.st0 (doProcessEvent "e1" 1000 Scenario.st0)
  ∧ ∃ wd, webhook_deliveries (db (doProcessEvent "e1" 1000 Scenario.st0)) !! "0" = Some wd
          ∧ wd_status wd = PENDING
          ∧ wd_next_retry_at wd = Some 1000
          ∧ ¬ (wd_next_retry_at wd ≠ None ↔ wd_status wd = RETRYING).
Proof.
  split; [done|]. split; [constructor|].
  exists (newDelivery "w1" "e1" 1000).
  split; [vm_compute; reflexivity|]. split; [done|]. split; [done|].
  cbn. intros [H _]. by discriminate H.
Qed.

End Running.

Section TerminalStatus.
Import Processor System.

(** One step leaves a terminal delivery alone when no call is in flight for
    it, and starts no call for it. *)
Lemma terminal_step (cfg : Config) (st st' : State) (id : string) (wd : WebhookDelivery) :
  step cfg st st' →
  webhook_deliveries (db st) !! id = Some wd →
  terminal (wd_status wd) →
  noCallFor id st →
  webhook_deliveries (db st') !! id = Some wd ∧ noCallFor id st'.
Proof.
  intros Hstep Hlk Hterm Hno.
  destruct Hstep as [st eventData now|st eventId now|st now|st i deliveryId Hi
                    |st i deliveryId row Hi|st i deliveryId row now result Hi
                    |st i t now message Hi].
  - done.
  - destruct (processEvent_deliveries eventId now (db st)) as [Hnew Hold].
    assert (Hnin : id ∉ (processEvent eventId now (db st)).1).
    { intros Hin. destruct (Hnew id Hin) as [Hnone _]. congruence. }
    split; [cbn; by rewrite Hold|].
    intros t [Ht|Ht]%elem_of_app; [by apply Hno|].
    apply list_elem_of_fmap in Ht as (id' & -> & Hin). cbn. by intros ->.
  - split; [done|].
    intros t [Ht|Ht]%elem_of_app; [by apply Hno|].
    apply list_elem_of_fmap in Ht as (id' & -> & Hin). cbn. intros ->.
    apply processWebhookQueue_due in Hin as (wd' & Hlk' & Hdue).
    rewrite Hlk in Hlk'. injection Hlk' as <-.
    by apply isDue_not_terminal in Hdue.
  - split; [done|].
    assert (Hne : deliveryId ≠ id).
    { apply (Hno (Called deliveryId)). by eapply list_elem_of_lookup_2. }
    intros t Ht. unfold doSelect in Ht. cbn [inflight] in Ht.
    destruct (selectDelivery deliveryId (db st)).1 as [row|].
    + apply list_elem_of_insert_inv in Ht as [->|Ht]; [done|by apply Hno].
    + apply list_elem_of_delete_inv in Ht. by apply Hno.
  - assert (Hne : deliveryId ≠ id).
    { apply (Hno (Loaded deliveryId row)). by eapply list_elem_of_lookup_2. }
    split; [cbn; by rewrite lookup_alter_ne|].
    intros t Ht. cbn [doInProgress inflight] in Ht.
    apply list_elem_of_insert_inv in Ht as [->|Ht]; [done|by apply Hno].
  - assert (Hne : deliveryId ≠ id).
    { apply (Hno (Posting deliveryId row)). by eapply list_elem_of_lookup_2. }
    split.
    + cbn [doResult db].
      destruct (recordResult_deliveries cfg deliveryId row now result (db st))
        as (f & -> & _).
      by rewrite lookup_alter_ne.
    + intros t Ht. cbn [doResult inflight] in Ht.
      apply list_elem_of_delete_inv in Ht. by apply Hno.
  - assert (Hne : task_id t ≠ id).
    { apply Hno. by eapply list_elem_of_lookup_2. }
    split; [cbn; by rewrite lookup_alter_ne|].
    intros t' Ht. cbn [doCatch inflight] in Ht.
    apply list_elem_of_delete_inv in Ht. by apply Hno.
Qed.

(** C4, as the code has it: once a delivery is terminal and no call of
    [deliverWebhook] is in flight for it, no step of the system (event
    creation, [processEvent] with its immediate dispatch, the sweeper, any
    stage of any call) changes its row, and no call is ever started for it
    again. *)
Theorem C4_terminal_stable_without_call_in_flight
    (cfg : Config) (st st' : State) (id : string) (wd : WebhookDelivery) :
  rtc (step cfg) st st' →
  webhook_deliveries (db st) !! id = Some wd →
  terminal (wd_status wd) →
  noCallFor id st →
  webhook_deliveries (db st') !! id = Some wd ∧ noCallFor id st'.
Proof.
  intros Hrun. induction Hrun as [|st1 st2 st3 Hstep _ IH]; [done|].
  intros Hlk Hterm Hno.
  destruct (terminal_step cfg st1 st2 id wd Hstep Hlk Hterm Hno) as [Hlk2 Hno2].
  by apply IH.
Qed.

Lemma C4_terminal_stable_without_call_in_flight_witness :
  webhook_deliveries (db (doSweep 5000 Scenario.delivered)) !! "0"
  = Some (completed SUCCEEDED 200 (Some "{}") 2000 (inProgress (newDelivery "w1" "e1" 1000)))
  ∧ noCallFor "0" (doSweep 5000 Scenario.delivered).
Proof.
  apply (C4_terminal_stable_without_call_in_flight config Scenario.delivered).
  - apply rtc_once, step_sweep.
  - vm_compute. reflexivity.
  - left. reflexivity.
  - intros t Ht. vm_compute in Ht. by apply elem_of_nil in Ht.
Defined.

Lemma firstAnswered_reachable : rtc (step config) Scenario.st0 Scenario.firstAnswered.
Proof.
  eapply rtc_l; [apply (step_processEvent config Scenario.st0 "e1" 1000)|].
  eapply rtc_l; [apply (step_sweep config _ 1001)|].
  eapply rtc_l; [apply (advance_step config 0 0 Scenario.http200); vm_compute; eauto|].
  eapply rtc_l; [apply (advance_step config 1 0 Scenario.http200); vm_compute; eauto|].
  eapply rtc_l; [apply (advance_step config 0 0 Scenario.http200); vm_compute; eauto|].
  eapply rtc_l; [apply (advance_step config 1 0 Scenario.http200); vm_compute; eauto|].
  eapply rtc_l; [apply (advance_step config 0 1500 Scenario.http200); vm_compute; eauto|].
  apply rtc_refl.
Qed.

(** C4 as stated fails: the sweeper selected the delivery while it was still
    pending, so a second call of [deliverWebhook] is in flight when the
    first one records SUCCEEDED; when the POST of the second call fails, the
    call overwrites the terminal status with RETRYING. *)
Lemma C4_counterexample :
  initial Scenario.st0
  ∧ rtc (step config) Scenario.st0 Scenario.firstAnswered
  ∧ step config Scenario.firstAnswered Scenario.secondFailed
  ∧ Scenario.statusOf Scenario.firstAnswered = Some SUCCEEDED
  ∧ Scenario.statusOf Scenario.secondFailed = Some RETRYING
  ∧ terminal SUCCEEDED ∧ ¬ terminal RETRYING.
Proof.
  split; [done|]. split; [apply firstAnswered_reachable|].
  split; [apply (advance_step config 0 11001 Scenario.http500); vm_compute; eauto|].
  split; [vm_compute; reflexivity|]. split; [vm_compute; reflexivity|].
  split; [by left|]. by intros [?|[?|?]].
Qed.

End TerminalStatus.

(** * Further properties of the code *)

(** ** The classifier *)

Section ClassifierMore.
Import Monitor.

(** The kinds pushed for the receiving side, and for the sending side. *)
Lemma addressEventTypes_cases address tx txInfo :
  ∃ r s m,
    addressEventTypes address tx txInfo = r ++ s ++ m
    ∧ (r = [] ∨ ∃ ada nft,
         isMember address (outputs tx) = true
         ∧ r = [TRANSACTION_RECEIVED] ++ ada ++ nft
         ∧ (ada = [] ∨ ada = [ADA_RECEIVED])
         ∧ (nft = [] ∨ nft = [TOKEN_RECEIVED] ∨ nft = [NFT_RECEIVED; TOKEN_RECEIVED]))
    ∧ (s = [] ∨ ∃ ada nft,
         isMember address (inputs tx) = true
         ∧ s = [TRANSACTION_SENT] ++ ada ++ nft
         ∧ (ada = [] ∨ ada = [ADA_SENT])
         ∧ (nft = [] ∨ nft = [TOKEN_SENT] ∨ nft = [NFT_SENT; TOKEN_SENT]))
    ∧ (m = [] ∨ m = [METADATA_ADDED]).
Proof.
  unfold addressEventTypes. do 3 eexists. split; [reflexivity|].
  split; [|split].
  - destruct (isMember address (outputs tx)); [|by left]. right.
    do 2 eexists. split; [done|]. split; [reflexivity|]. split.
    + destruct (jsPositive _); auto.
    + case_bool_decide; [|by left]. destruct (hasNFTs _); auto.
  - destruct (isMember address (inputs tx)); [|by left]. right.
    do 2 eexists. split; [done|]. split; [reflexivity|]. split.
    + destruct (jsPositive _); auto.
    + case_bool_decide; [|by left]. destruct (hasNFTs _); auto.
  - destruct (metadata txInfo); auto.
Qed.

Ltac by_cases address tx txInfo :=
  destruct (addressEventTypes_cases address tx txInfo)
    as (r & s & m & -> & Hr & Hs & Hm);
  destruct Hr as [->|(ra & rn & _ & -> & [->| ->] & [->|[->| ->]])];
  destruct Hs as [->|(sa & sn & _ & -> & [->| ->] & [->|[->| ->]])];
  destruct Hm as [->| ->]; simpl.

(** X1: the detail events of a side come only with its transaction event,
    and an NFT event only with the token event: ADA_RECEIVED, TOKEN_RECEIVED
    and NFT_RECEIVED imply TRANSACTION_RECEIVED, NFT_RECEIVED implies
    TOKEN_RECEIVED, and the same for the sending side. *)
Theorem X1_detail_events_come_with_their_side (address : string) (tx : ListedTx)
    (txInfo : CardanoTransaction) (t : EventType) :
  t ∈ addressEventTypes address tx txInfo →
  (t ∈ [ADA_RECEIVED; TOKEN_RECEIVED; NFT_RECEIVED] →
     TRANSACTION_RECEIVED ∈ addressEventTypes address tx txInfo)
  ∧ (t = NFT_RECEIVED → TOKEN_RECEIVED ∈ addressEventTypes address tx txInfo)
  ∧ (t ∈ [ADA_SENT; TOKEN_SENT; NFT_SENT] →
     TRANSACTION_SENT ∈ addressEventTypes address tx txInfo)
  ∧ (t = NFT_SENT → TOKEN_SENT ∈ addressEventTypes address tx txInfo).
Proof.
  by_cases address tx txInfo; intros Ht; repeat split; intros Hk;
    try (subst t); set_solver.
Qed.

Lemma X1_detail_events_come_with_their_side_witness :
  TRANSACTION_RECEIVED ∈ addressEventTypes "addr1" Examples.nftTx Scenario.T1
  ∧ TOKEN_RECEIVED ∈ addressEventTypes "addr1" Examples.nftTx Scenario.T1.
Proof.
  assert (Hin : NFT_RECEIVED ∈ addressEventTypes "addr1" Examples.nftTx Scenario.T1).
  { vm_compute. do 2 right. left. }
  destruct (X1_detail_events_come_with_their_side "addr1" Examples.nftTx Scenario.T1
              NFT_RECEIVED Hin) as (H1 & H2 & _).
  split; [apply H1; set_solver|by apply H2].
Defined.

(** X2: no kind of event is pushed twice for one transaction. *)
Theorem X2_each_kind_at_most_once (address : string) (tx : ListedTx)
    (txInfo : CardanoTransaction) :
  NoDup (addressEventTypes address tx txInfo).
Proof.
  by_cases address tx txInfo; repeat (constructor; [set_solver|]); constructor.
Qed.
End ClassifierMore.

Section ClassifierAmounts.
Import Monitor.

Lemma foldl_jsAdd_NaN (l : list (option Amount)) :
  foldl (λ sum amount, jsAdd sum (parseInt (quantityOf amount))) None l = None.
Proof. induction l as [|a l IH]; [done|]. simpl. exact IH. Qed.

Lemma foldl_jsAdd_unreadable (l : list (option Amount)) (a : option Amount) (acc : JsNumber) :
  a ∈ l → parseInt (quantityOf a) = None →
  foldl (λ sum amount, jsAdd sum (parseInt (quantityOf amount))) acc l = None.
Proof.
  intros Hin Ha. revert acc. induction Hin as [a l|a b l Hin IH]; intros acc; simpl.
  - rewrite Ha. destruct acc; simpl; apply foldl_jsAdd_NaN.
  - by apply IH.
Qed.

Lemma amountsAt_elem address (l : list TxEntry) (e : TxEntry) (amounts : list (option Amount)) a :
  e ∈ l → entry_address e = Some address → entry_amount e = Some amounts →
  a ∈ amounts → a ∈ amountsAt address l.
Proof.
  intros He Haddr Hamt Ha. unfold amountsAt.
  apply list_elem_of_In, in_flat_map. exists e. split.
  - apply list_elem_of_In, list_elem_of_filter. split; [|done].
    unfold entryAt. by apply bool_decide_eq_true.
  - rewrite Hamt. simpl. by apply list_elem_of_In.
Qed.

(** X5: one unreadable quantity hides the ADA.  The lovelace received is
    summed with [parseInt]: when an output at the watched address carries a
    lovelace amount whose quantity [parseInt] cannot read, the sum is NaN,
    [NaN > 0] is false, and ADA_RECEIVED is not emitted, whatever the other
    amounts of the transaction are. *)
Theorem X5_unreadable_quantity_suppresses_ada
    (address : string) (tx : ListedTx) (txInfo : CardanoTransaction)
    (outs : list TxEntry) (o : TxEntry) (amounts : list (option Amount)) (a : Amount) :
  outputs tx = Some outs →
  o ∈ outs → entry_address o = Some address → entry_amount o = Some amounts →
  Some a ∈ amounts → unit_ a = "lovelace" → parseInt (quantity a) = None →
  ADA_RECEIVED ∉ addressEventTypes address tx txInfo.
Proof.
  intros Houts Ho Haddr Hamt Ha Hunit Hq.
  assert (Hsum : lovelaceSum address (outputs tx) = None).
  { rewrite Houts. cbn [lovelaceSum].
    apply (foldl_jsAdd_unreadable _ (Some a)); [|done].
    apply list_elem_of_In, filter_In. split.
    - apply list_elem_of_In. by eapply amountsAt_elem.
    - cbn. by apply bool_decide_eq_true. }
  unfold addressEventTypes. rewrite Hsum. cbn [jsPositive].
  rewrite !elem_of_app. intros [H|[H|H]]; revert H; repeat case_match; simpl; set_solver.
Qed.

Lemma X5_unreadable_quantity_suppresses_ada_witness :
  ADA_RECEIVED ∉ addressEventTypes "addr1" Examples.garbledTx Scenario.T1.
Proof.
  eapply (X5_unreadable_quantity_suppresses_ada "addr1" Examples.garbledTx Scenario.T1
            _ _ _ {| unit_ := "lovelace"; quantity := "n/a" |}).
  - reflexivity.
  - apply list_elem_of_here.
  - reflexivity.
  - reflexivity.
  - right. left.
  - reflexivity.
  - reflexivity.
Defined.

(** X3: a pure sender gets no receiving event.  When the watched address
    is the address of an input of the listed transaction and of none of its
    outputs, TRANSACTION_SENT is emitted and none of TRANSACTION_RECEIVED,
    ADA_RECEIVED, TOKEN_RECEIVED and NFT_RECEIVED is. *)
Theorem X3_sender_only (address : string) (tx : ListedTx)
    (txInfo : CardanoTransaction) (ins : list TxEntry) :
  inputs tx = Some ins →
  (∃ i, i ∈ ins ∧ entry_address i = Some address) →
  (∀ outs o, outputs tx = Some outs → o ∈ outs → entry_address o ≠ Some address) →
  TRANSACTION_SENT ∈ addressEventTypes address tx txInfo
  ∧ (TRANSACTION_RECEIVED ∉ addressEventTypes address tx txInfo)
  ∧ (ADA_RECEIVED ∉ addressEventTypes address tx txInfo)
  ∧ (TOKEN_RECEIVED ∉ addressEventTypes address tx txInfo)
  ∧ (NFT_RECEIVED ∉ addressEventTypes address tx txInfo).
Proof.
  intros Hins Hin Hout.
  assert (Hs : isMember address (inputs tx) = true).
  { rewrite Hins. by apply isMember_Some. }
  assert (Hr : isMember address (outputs tx) = false) by by apply isMember_false.
  unfold addressEventTypes. rewrite Hr, Hs.
  repeat split.
  - rewrite !elem_of_app. right. left. set_solver.
  - repeat case_match; simpl; set_solver.
  - repeat case_match; simpl; set_solver.
  - repeat case_match; simpl; set_solver.
  - repeat case_match; simpl; set_solver.
Qed.

Lemma X3_sender_only_witness :
  TRANSACTION_SENT ∈ addressEventTypes "addr0" Examples.nftTx Scenario.T1
  ∧ (TRANSACTION_RECEIVED ∉ addressEventTypes "addr0" Examples.nftTx Scenario.T1)
  ∧ (ADA_RECEIVED ∉ addressEventTypes "addr0" Examples.nftTx Scenario.T1)
  ∧ (TOKEN_RECEIVED ∉ addressEventTypes "addr0" Examples.nftTx Scenario.T1)
  ∧ (NFT_RECEIVED ∉ addressEventTypes "addr0" Examples.nftTx Scenario.T1).
Proof.
  eapply X3_sender_only.
  - reflexivity.
  - eexists. split; [apply list_elem_of_here|reflexivity].
  - intros outs o [= <-] Ho. apply list_elem_of_singleton in Ho as ->. discriminate.
Defined.

(** X4: a listed transaction none of whose entries has the watched address
    (in particular one listed without [inputs] and [outputs]) is still
    classified: the detail fetched for it gives exactly one event,
    METADATA_ADDED. *)
Theorem X4_uninvolved_address_gets_metadata_event (client : Blockfrost.Client)
    (address : string) (tx : ListedTx) :
  (∀ outs o, outputs tx = Some outs → o ∈ outs → entry_address o ≠ Some address) →
  (∀ ins i, inputs tx = Some ins → i ∈ ins → entry_address i ≠ Some address) →
  addressEventTypes address tx (Blockfrost.getTransactionInfo client (tx_hash tx))
  = [METADATA_ADDED].
Proof.
  intros Hout Hin.
  unfold addressEventTypes.
  rewrite (isMember_false _ _ Hout), (isMember_false _ _ Hin).
  by destruct (getTransactionInfo_metadata client (tx_hash tx)) as [m ->].
Qed.

Lemma X4_uninvolved_address_gets_metadata_event_witness :
  addressEventTypes "addr1" Examples.bareTx
    (Blockfrost.getTransactionInfo Scenario.provider "T3")
  = [METADATA_ADDED].
Proof.
  apply (X4_uninvolved_address_gets_metadata_event Scenario.provider "addr1" Examples.bareTx).
  - intros outs o H. discriminate H.
  - intros ins i H. discriminate H.
Defined.

End ClassifierAmounts.

(** ** The dedup cache and the monitoring cycle *)

Section CacheCycle.
Import Monitor Monitoring.

Lemma forEachTx_contract_cache client contract now transactions :
  ∀ c db,
    (forEachTx (contractTxBody client contract now) c transactions db).1.1
    = (dedupRun admitContractTx c
         ((λ tx, txKey (mc_id contract) (tx_hash tx)) <$> transactions)).2.
Proof.
  induction transactions as [|tx rest IH]; intros c db; [done|].
  cbn [forEachTx fmap list_fmap dedupRun].
  unfold mbind, DB_bind, mret, DB_ret. cbn [fst snd]. rewrite IH.
  unfold contractTxBody.
  destruct (admitContractTx (txKey (mc_id contract) (tx_hash tx)) c); done.
Qed.

Lemma admitAddressTx_withinLimit key c c' :
  (1 ≤ maxSize c)%nat → withinLimit c → admitAddressTx key c = Some c' →
  maxSize c' = maxSize c ∧ withinLimit c'.
Proof.
  intros Hm [Ha Hc]. unfold admitAddressTx. case_bool_decide; [done|].
  case_bool_decide as Hover; intros [= <-]; (split; [done|]); split;
    unfold addAddressKey, reset in *; cbn [addresses contracts maxSize] in *.
  - by rewrite (right_id_L ∅ (∪)), size_singleton.
  - rewrite size_empty. lia.
  - lia.
  - done.
Qed.

Lemma admitContractTx_withinLimit key c c' :
  (1 ≤ maxSize c)%nat → withinLimit c → admitContractTx key c = Some c' →
  maxSize c' = maxSize c ∧ withinLimit c'.
Proof.
  intros Hm [Ha Hc]. unfold admitContractTx. case_bool_decide; [done|].
  case_bool_decide as Hover; intros [= <-]; (split; [done|]); split;
    unfold addContractKey, reset in *; cbn [addresses contracts maxSize] in *.
  - rewrite size_empty. lia.
  - by rewrite (right_id_L ∅ (∪)), size_singleton.
  - done.
  - lia.
Qed.

Lemma dedupRun_withinLimit enter keys :
  (∀ key c c', (1 ≤ maxSize c)%nat → withinLimit c → enter key c = Some c' →
               maxSize c' = maxSize c ∧ withinLimit c') →
  ∀ c, (1 ≤ maxSize c)%nat → withinLimit c →
       maxSize (dedupRun enter c keys).2 = maxSize c
       ∧ withinLimit (dedupRun enter c keys).2.
Proof.
  intros Henter. induction keys as [|key rest IH]; intros c Hm Hc; [done|].
  cbn [dedupRun]. destruct (enter key c) as [c'|] eqn:He; cbn [snd].
  - destruct (Henter key c c' Hm Hc He) as [Hm' Hc'].
    destruct (IH c') as [? ?]; [lia|done|]. split; [congruence|done].
  - by apply IH.
Qed.

Lemma checkAddressTransactions_cache client address now c db :
  (checkAddressTransactions client address now c db).1.1
  = (dedupRun admitAddressTx c
       ((λ tx, txKey (ma_id address) (tx_hash tx))
          <$> Blockfrost.addressesTransactions client (ma_address address))).2.
Proof. apply forEachTx_address_cache. Qed.

Lemma checkContractTransactions_cache client contract now c db :
  (checkContractTransactions client contract now c db).1.1
  = (dedupRun admitContractTx c
       ((λ tx, txKey (mc_id contract) (tx_hash tx))
          <$> Blockfrost.addressesTransactions client (mc_address contract))).2.
Proof. apply forEachTx_contract_cache. Qed.

Lemma forEachEntity_withinLimit {E} (check : E → LastProcessedTxs → DB (LastProcessedTxs * list string)) es :
  (∀ e c db, (1 ≤ maxSize c)%nat → withinLimit c →
             maxSize (check e c db).1.1 = maxSize c ∧ withinLimit (check e c db).1.1) →
  ∀ c db, (1 ≤ maxSize c)%nat → withinLimit c →
          maxSize (forEachEntity check es c db).1.1 = maxSize c
          ∧ withinLimit (forEachEntity check es c db).1.1.
Proof.
  intros Hcheck. induction es as [|e rest IH]; intros c db Hm Hc; [done|].
  cbn [forEachEntity]. unfold mbind, DB_bind, mret, DB_ret. cbn [fst snd].
  destruct (Hcheck e c db Hm Hc) as [Hm1 Hc1].
  destruct (IH (check e c db).1.1 (check e c db).2) as [? ?]; [lia|done|].
  split; [congruence|done].
Qed.

(** X6: the limit bounds each key set.  A cache whose two key sets are
    within a limit of at least 1 is so again after a whole monitoring cycle
    (every active address, then every active contract), and the limit is
    unchanged; the cache never holds more than twice [maxSize] keys. *)
Theorem X6_cycle_keeps_key_sets_within_limit (client : Blockfrost.Client)
    (addressTable contractTable : gmap string MonitoredRow) (now : Z)
    (c : LastProcessedTxs) (db : Db) :
  (1 ≤ maxSize c)%nat → withinLimit c →
  let c' := (monitorCycle client addressTable contractTable now c db).1.1 in
  maxSize c' = maxSize c
  ∧ (size (addresses c') ≤ maxSize c)%nat
  ∧ (size (contracts c') ≤ maxSize c)%nat
  ∧ (size (addresses c') + size (contracts c') ≤ 2 * maxSize c)%nat.
Proof.
  intros Hm Hc. cbv zeta. unfold monitorCycle, mbind, DB_bind, mret, DB_ret.
  cbn [fst snd].
  set (r1 := forEachEntity _ (getActiveAddresses addressTable) c db).
  assert (H1 : maxSize r1.1.1 = maxSize c ∧ withinLimit r1.1.1).
  { apply forEachEntity_withinLimit; [|done..].
    intros a c0 db0 Hm0 Hc0. rewrite checkAddressTransactions_cache.
    apply dedupRun_withinLimit; [|done..]. apply admitAddressTx_withinLimit. }
  destruct H1 as [Hm1 Hc1].
  set (r2 := forEachEntity _ (getActiveContracts contractTable) r1.1.1 r1.2).
  assert (H2 : maxSize r2.1.1 = maxSize r1.1.1 ∧ withinLimit r2.1.1).
  { apply forEachEntity_withinLimit; [|lia|done].
    intros k c0 db0 Hm0 Hc0. rewrite checkContractTransactions_cache.
    apply dedupRun_withinLimit; [|done..]. apply admitContractTx_withinLimit. }
  destruct H2 as [Hm2 [Ha2 Hk2]]. rewrite Hm2, Hm1 in *.
  repeat split; [done..|lia].
Qed.

Lemma X6_cycle_keeps_key_sets_within_limit_witness :
  let c' := (monitorCycle Scenario.provider CycleExamples.addressTable CycleExamples.contractTable
               5 lastProcessedTxs Scenario.emptyDb).1.1 in
  maxSize c' = 1000%nat
  ∧ (size (addresses c') ≤ 1000)%nat
  ∧ (size (contracts c') ≤ 1000)%nat
  ∧ (size (addresses c') + size (contracts c') ≤ 2 * 1000)%nat.
Proof.
  apply (X6_cycle_keeps_key_sets_within_limit Scenario.provider CycleExamples.addressTable
           CycleExamples.contractTable 5 lastProcessedTxs Scenario.emptyDb).
  - cbn. lia.
  - split; cbn; rewrite size_empty; lia.
Defined.


(** Without an overflow the scan adds its keys and nothing else happens to
    the cache. *)
Lemma dedupRun_address_no_overflow keys :
  ∀ c, (size (addresses c ∪ list_to_set keys) ≤ maxSize c)%nat →
       (dedupRun admitAddressTx c keys).2
       = {| addresses := addresses c ∪ list_to_set keys;
            contracts := contracts c; maxSize := maxSize c |}.
Proof.
  induction keys as [|key rest IH]; intros c Hsize.
  { cbn. rewrite (right_id_L ∅ (∪)). by destruct c. }
  cbn [dedupRun]. destruct (decide (key ∈ addresses c)) as [Hin|Hnin].
  - rewrite admitAddressTx_seen by done. cbn [snd].
    assert (Heq : addresses c ∪ list_to_set (key :: rest)
                  = addresses c ∪ list_to_set rest) by set_solver.
    rewrite Heq in *. by apply IH.
  - assert (Hc1 : admitAddressTx key c = Some (addAddressKey key c)).
    { unfold admitAddressTx. rewrite bool_decide_eq_false_2 by done. cbv zeta.
      rewrite bool_decide_eq_false_2; [done|].
      cbn [addAddressKey maxSize addresses].
      assert (size ({[key]} ∪ addresses c)
              ≤ size (addresses c ∪ list_to_set (key :: rest)))%nat
        by (apply subseteq_size; set_solver).
      lia. }
    rewrite Hc1. cbn [snd].
    assert (Heq : addresses c ∪ list_to_set (key :: rest)
                  = addresses (addAddressKey key c) ∪ list_to_set rest).
    { cbn [addAddressKey addresses]. set_solver. }
    rewrite Heq in *. by rewrite IH.
Qed.

Lemma forEachTx_address_all_skipped client address now c transactions db :
  (∀ tx, tx ∈ transactions → txKey (ma_id address) (tx_hash tx) ∈ addresses c) →
  forEachTx (addressTxBody client address now) c transactions db = ((c, []), db).
Proof.
  induction transactions as [|tx rest IH]; intros Hall; [done|].
  cbn [forEachTx]. unfold mbind, DB_bind, mret, DB_ret. cbn [fst snd].
  assert (Hb : addressTxBody client address now c tx db = ((c, []), db)).
  { unfold addressTxBody. rewrite admitAddressTx_seen; [done|]. apply Hall. left. }
  rewrite Hb. cbn [fst snd]. rewrite IH; [done|].
  intros tx' Hin. apply Hall. by right.
Qed.

(** X7: polling again creates nothing.  When the keys of the listed
    transactions fit in the cache beside the address keys already there, a
    second check of the same address, the provider listing the same
    transactions, skips every one of them: it creates no event and leaves
    the cache and the three tables as the first check left them. *)
Theorem X7_second_check_creates_nothing (client : Blockfrost.Client)
    (address : MonitoredAddress) (now now' : Z) (c : LastProcessedTxs) (db : Db) :
  (size (addresses c
         ∪ list_to_set ((λ tx, txKey (ma_id address) (tx_hash tx))
                          <$> Blockfrost.addressesTransactions client (ma_address address)))
   ≤ maxSize c)%nat →
  let r1 := checkAddressTransactions client address now c db in
  let r2 := checkAddressTransactions client address now' r1.1.1 r1.2 in
  r2.1 = (r1.1.1, [])
  ∧ transaction_events r2.2 = transaction_events r1.2
  ∧ webhooks r2.2 = webhooks r1.2
  ∧ webhook_deliveries r2.2 = webhook_deliveries r1.2.
Proof.
  intros Hsize r1 r2.
  assert (Hc1 : addresses r1.1.1
                = addresses c
                  ∪ list_to_set ((λ tx, txKey (ma_id address) (tx_hash tx))
                       <$> Blockfrost.addressesTransactions client (ma_address address))).
  { unfold r1. rewrite checkAddressTransactions_cache.
    by rewrite dedupRun_address_no_overflow. }
  assert (Hr2 : r2 = ((r1.1.1, []), logged (UpdateLastChecked (ma_id address)) r1.2)).
  { unfold r2, checkAddressTransactions, mbind, DB_bind. cbn [query fst snd].
    apply forEachTx_address_all_skipped.
    intros tx Hin. rewrite Hc1. apply elem_of_union_r, elem_of_list_to_set.
    apply list_elem_of_fmap. by exists tx. }
  by rewrite Hr2.
Qed.

Lemma X7_second_check_creates_nothing_witness :
  let r1 := checkAddressTransactions Scenario.provider Scenario.a1 5 lastProcessedTxs
              Scenario.emptyDb in
  let r2 := checkAddressTransactions Scenario.provider Scenario.a1 30005 r1.1.1 r1.2 in
  r2.1 = (r1.1.1, [])
  ∧ transaction_events r2.2 = transaction_events r1.2
  ∧ webhooks r2.2 = webhooks r1.2
  ∧ webhook_deliveries r2.2 = webhook_deliveries r1.2.
Proof.
  apply (X7_second_check_creates_nothing Scenario.provider Scenario.a1 5 30005
           lastProcessedTxs Scenario.emptyDb).
  vm_compute. lia.
Defined.



End CacheCycle.

Section MonitorCycle.
Import Monitor Monitoring.

Lemma reduceMetadata_fold (items : list MetadataItem) :
  ∀ (acc : gmap string string) (l : string),
    foldl (λ acc item, <[label item := json_metadata item]> acc) acc items !! l
    = match last (filter (λ item, label item = l) items) with
      | Some item => Some (json_metadata item)
      | None => acc !! l
      end.
Proof.
  induction items as [|item rest IH]; intros acc l; [done|].
  cbn [foldl]. rewrite IH. rewrite filter_cons. case_decide as Hl.
  - rewrite last_cons. destruct (last (filter _ rest)); [done|].
    by rewrite <- Hl, lookup_insert_eq.
  - destruct (last (filter _ rest)); [done|]. by rewrite lookup_insert_ne.
Qed.

(** X9: the metadata of a fetched transaction.  When no item that the
    provider returned has the label ["__proto__"] (the labels of transaction
    metadata are numbers), the [metadata] object of the detail maps each
    label returned to the [json_metadata] of the last item with that label,
    and has no other key; it is the empty object when the provider returned
    no item or the call failed. *)
Theorem X9_metadata_last_item_per_label (client : Blockfrost.Client) (txHash : string) :
  (∀ items item, Blockfrost.txsMetadata client txHash = Some items →
                 item ∈ items → label item ≠ "__proto__") →
  ∃ m, metadata (Blockfrost.getTransactionInfo client txHash) = Some m
       ∧ ∀ l, m !! l
              = json_metadata
                  <$> last (filter (λ item, label item = l)
                              (default [] (Blockfrost.txsMetadata client txHash))).
Proof.
  intros _. unfold Blockfrost.getTransactionInfo.
  destruct (Blockfrost.txsMetadata client txHash) as [[|item items]|];
    cbn [metadata default]; eexists; (split; [reflexivity|]); intros l.
  - done.
  - unfold Blockfrost.reduceMetadata. rewrite reduceMetadata_fold.
    by destruct (last _).
  - done.
Qed.

Lemma X9_metadata_last_item_per_label_witness :
  ∃ m, metadata (Blockfrost.getTransactionInfo Examples.labelled "T5") = Some m
       ∧ ∀ l, m !! l
              = json_metadata
                  <$> last (filter (λ item, label item = l)
                              (default [] (Blockfrost.txsMetadata Examples.labelled "T5"))).
Proof.
  apply (X9_metadata_last_item_per_label Examples.labelled "T5").
  intros items item [= <-] Hin.
  apply list_elem_of_In in Hin. simpl in Hin.
  destruct Hin as [<-|[<-|[<-|[]]]]; discriminate.
Defined.



End MonitorCycle.

(** ** Authentication and the routes *)

Section Authentication.
Import Auth Routes Processor.

Lemma jsSplit_no_separator (sep : ascii) (s : string) :
  (∀ i, String.get i s ≠ Some sep) → jsSplit sep s = [s].
Proof.
  induction s as [|a s IH]; intros Hno; [done|].
  cbn [jsSplit]. rewrite bool_decide_eq_false_2.
  - rewrite IH; [done|]. intros i. apply (Hno (S i)).
  - intros ->. by apply (Hno 0%nat).
Qed.

Lemma bearer_token (token : string) :
  (∀ i, String.get i token ≠ Some " "%char) →
  String.prefix "Bearer " ("Bearer " +:+ token) = true
  ∧ jsSplit " " ("Bearer " +:+ token) !! 1%nat = Some token.
Proof.
  intros Hno.
  assert (Heq : "Bearer " +:+ token
                = String "B" (String "e" (String "a" (String "r" (String "e"
                    (String "r" (String " " token))))))) by reflexivity.
  rewrite Heq. split.
  - cbn. by destruct token.
  - cbn. by rewrite jsSplit_no_separator.
Qed.

(** X12: a stored key opens the door.  For a token without a space, the
    header ["Bearer " + token] is accepted when the table has an active row
    whose [key_hash] is ["placeholder-hash-" + token] (hashes are unique) and
    which has not expired; the request goes on with that row, and the row's
    [last_used_at] becomes the time of the request. *)
Theorem X12_stored_key_authenticates (keys : gmap string ApiKey) (id : string)
    (k : ApiKey) (token : string) (now : Z) :
  keys !! id = Some k →
  ak_key_hash k = "placeholder-hash-" +:+ token →
  ak_is_active k = true →
  (∀ t, ak_expires_at k = Some t → (now ≤ t)%Z) →
  token ≠ "" → (∀ i, String.get i token ≠ Some " "%char) →
  (∀ id' k', keys !! id' = Some k' → ak_key_hash k' = ak_key_hash k → id' = id) →
  apiKeyAuth (Some ("Bearer " +:+ token)) now keys
  = (Authenticated id k, alter (touch now) id keys).
Proof.
  intros Hk Hhash Hact Hexp Hne Hno Huniq.
  destruct (bearer_token token Hno) as [Hp Hs].
  unfold apiKeyAuth. rewrite Hp, Hs. cbn [negb].
  destruct token as [|a token]; [done|].
  set (l := filter _ (map_to_list keys)).
  assert (Hin : (id, k) ∈ l).
  { apply list_elem_of_filter. split; [by split|]. by apply elem_of_map_to_list. }
  assert (Hall : ∀ r, r ∈ l → r = (id, k)).
  { intros [id' k'] [[Hh _] Hr]%list_elem_of_filter.
    apply elem_of_map_to_list in Hr. cbn in Hh.
    assert (id' = id) as -> by (eapply Huniq; [done|congruence]).
    congruence. }
  destruct l as [|r rest]; [by apply elem_of_nil in Hin|].
  rewrite (Hall r) by left. cbn [fst snd].
  destruct (ak_expires_at k) as [t|] eqn:Ht; [|done].
  rewrite bool_decide_eq_false_2; [done|]. specialize (Hexp t eq_refl). lia.
Qed.

Lemma X12_stored_key_authenticates_witness :
  apiKeyAuth (Some ("Bearer " +:+ "key-2")) 4000 ApiExamples.keys
  = (Authenticated "k2"
       {| ak_name := "reader"; ak_key_hash := "placeholder-hash-key-2";
          ak_permissions := ["read"]; ak_expires_at := Some 5000;
          ak_last_used_at := None; ak_is_active := true |},
     alter (touch 4000) "k2" ApiExamples.keys).
Proof.
  apply X12_stored_key_authenticates.
  - vm_compute. reflexivity.
  - reflexivity.
  - reflexivity.
  - intros t [= <-]. lia.
  - discriminate.
  - intros [|[|[|[|[|i]]]]]; cbn; discriminate.
  - intros id' k' Hk' Hh. unfold ApiExamples.keys in Hk'.
    apply lookup_insert_Some in Hk' as [[<- <-]|[_ Hk']]; [discriminate Hh|].
    by apply lookup_singleton_Some in Hk' as [<- _].
Defined.

Lemma apiKeyAuth_sound (authorization : option string) (now : Z)
    (keys : gmap string ApiKey) :
  match apiKeyAuth authorization now keys with
  | (Authenticated id k, keys') =>
      (∃ authHeader token,
          authorization = Some authHeader
          ∧ String.prefix "Bearer " authHeader = true
          ∧ jsSplit " " authHeader !! 1%nat = Some token
          ∧ token ≠ ""
          ∧ ak_key_hash k = "placeholder-hash-" +:+ token)
      ∧ keys !! id = Some k
      ∧ ak_is_active k = true
      ∧ (∀ t, ak_expires_at k = Some t → (now ≤ t)%Z)
      ∧ keys' = alter (touch now) id keys
  | (Unauthorized _, keys') => keys' = keys
  end.
Proof.
  unfold apiKeyAuth. destruct authorization as [authHeader|]; [|done].
  destruct (String.prefix "Bearer " authHeader) eqn:Hp; cbn [negb]; [|done].
  destruct (jsSplit " " authHeader !! 1%nat) as [[|a token]|] eqn:Hs; [done| |done].
  destruct (filter _ (map_to_list keys)) as [|[id k] rest] eqn:Hf; [done|].
  assert (Hin : (id, k) ∈ filter (λ r : string * ApiKey,
                   ak_key_hash r.2 = "placeholder-hash-" +:+ String a token
                   ∧ ak_is_active r.2 = true) (map_to_list keys))
    by (rewrite Hf; left).
  apply list_elem_of_filter in Hin as [[Hh Hact] Hin].
  apply elem_of_map_to_list in Hin. cbn [fst snd] in *.
  destruct (ak_expires_at k) as [t|] eqn:Ht.
  - case_bool_decide as Hlt; [done|].
    split; [by exists authHeader, (String a token)|].
    split; [done|]. split; [done|]. split; [|done].
    intros t' Ht'. rewrite Ht in Ht'. injection Ht' as <-. lia.
  - split; [by exists authHeader, (String a token)|].
    split; [done|]. split; [done|]. split; [|done].
    intros t' Ht'. rewrite Ht in Ht'. discriminate.
Qed.

(** X13: nothing else does.  Whenever [apiKeyAuth] lets a request through,
    the header begins with ["Bearer "], the piece after the first space is
    not empty, and the row handed on is an active row of the table, with
    that piece's placeholder hash, not expired at the time of the request;
    only its [last_used_at] is then updated.  Whenever it answers 401 the
    table is unchanged. *)
Theorem X13_authentication_is_sound (authorization : option string) (now : Z)
    (keys : gmap string ApiKey) :
  match apiKeyAuth authorization now keys with
  | (Authenticated id k, keys') =>
      (∃ authHeader token,
          authorization = Some authHeader
          ∧ String.prefix "Bearer " authHeader = true
          ∧ jsSplit " " authHeader !! 1%nat = Some token
          ∧ token ≠ ""
          ∧ ak_key_hash k = "placeholder-hash-" +:+ token)
      ∧ keys !! id = Some k
      ∧ ak_is_active k = true
      ∧ (∀ t, ak_expires_at k = Some t → (now ≤ t)%Z)
      ∧ keys' = alter (touch now) id keys
  | (Unauthorized _, keys') => keys' = keys
  end.
Proof. apply apiKeyAuth_sound. Qed.

End Authentication.

Section WebhookRoutes.
Import Auth Routes Processor.

Lemma validEventTypes_elem (t : string) :
  t ∈ validEventTypes → ∃ e, t = EventType_value e.
Proof. unfold validEventTypes. intros (e & -> & _)%list_elem_of_fmap. by exists e. Qed.

Lemma filter_nil_all {A} (P : A → Prop) `{!∀ x, Decision (P x)} (l : list A) :
  filter P l = [] ↔ ∀ x, x ∈ l → ¬ P x.
Proof.
  split.
  - intros Hf x Hin HP. by eapply filter_nil_not_elem_of.
  - intros Hall. destruct (filter P l) as [|x rest] eqn:Hf; [done|].
    assert (Hx : x ∈ filter P l) by (rewrite Hf; left).
    apply list_elem_of_filter in Hx as [HP Hin]. by destruct (Hall x Hin).
Qed.

(** What [postWebhook] does, by its answer. *)
Lemma postWebhook_cases (isURL : string → bool) (body : WebhookBody) (db : Db) :
  match (postWebhook isURL body db).1 with
  | Registered id =>
      webhooks db !! id = None
      ∧ ∃ w, (postWebhook isURL body db).2 = set_webhooks <[id := w]> db
             ∧ w_is_active w = true
             ∧ w_name w ≠ "" ∧ w_url w ≠ "" ∧ isURL (w_url w) = true
             ∧ w_event_types w ≠ []
             ∧ req_event_types body = Some (w_event_types w)
             ∧ (∀ t, t ∈ w_event_types w → ∃ e, t = EventType_value e)
  | _ => (postWebhook isURL body db).2 = db
  end.
Proof.
  unfold postWebhook.
  destruct (Monitoring.orNull (req_name body)) as [name|] eqn:Hn; [|done].
  destruct (Monitoring.orNull (req_url body)) as [url|] eqn:Hu; [|done].
  destruct (req_event_types body) as [[|ty tys]|]; [done| |done].
  destruct (isURL url) eqn:Hurl; cbn [negb]; [|done].
  destruct (filter (λ type, type ∉ validEventTypes) (ty :: tys)) as [|bad rest] eqn:Hf;
    [|done].
  cbn [fst snd]. split; [apply not_elem_of_dom, is_fresh|].
  eexists. split; [reflexivity|]. cbn.
  assert (Hne : ∀ o s, Monitoring.orNull o = Some s → s ≠ "").
  { intros [[|a s']|] s; cbn; intros [= <-]; done. }
  repeat split; eauto.
  intros t Ht. apply validEventTypes_elem.
  destruct (decide (t ∈ validEventTypes)) as [|Hbad]; [done|].
  by destruct (proj1 (filter_nil_all _ _) Hf t Ht).
Qed.

(** X15: only a well-formed subscription is stored.  When [POST
    /api/webhooks] answers 201, the webhook it stored (under a fresh id,
    leaving the other rows alone) is active, has a non-empty name, a URL
    that [new URL] accepts, and the event types of the request, which are
    not empty and are all values of the [EventType] enum; with any other
    answer the database is unchanged. *)
Theorem X15_registered_webhook_is_well_formed (isURL : string → bool)
    (body : WebhookBody) (db : Db) :
  match (postWebhook isURL body db).1 with
  | Registered id =>
      webhooks db !! id = None
      ∧ ∃ w, (postWebhook isURL body db).2 = set_webhooks <[id := w]> db
             ∧ w_is_active w = true
             ∧ w_name w ≠ "" ∧ w_url w ≠ "" ∧ isURL (w_url w) = true
             ∧ w_event_types w ≠ []
             ∧ req_event_types body = Some (w_event_types w)
             ∧ (∀ t, t ∈ w_event_types w → ∃ e, t = EventType_value e)
  | _ => (postWebhook isURL body db).2 = db
  end.
Proof. apply postWebhook_cases. Qed.

(** X16: from registration to delivery.  After a webhook was registered
    for some event types, an event of one of these types that the monitor
    creates and [processEvent] then handles gets a pending delivery for that
    webhook. *)
Theorem X16_registered_webhook_receives_delivery (isURL : string → bool)
    (body : WebhookBody) (db : Db) (webhookId : string) (types : list string)
    (eventData : NewTransactionEvent) (now now' : Z) :
  (postWebhook isURL body db).1 = Registered webhookId →
  req_event_types body = Some types →
  EventType_value (ne_event_type eventData) ∈ types →
  let db1 := (postWebhook isURL body db).2 in
  let created := Monitor.createTransactionEvent eventData now db1 in
  let r := processEvent created.1 now' created.2 in
  ∃ id, id ∈ r.1
        ∧ webhook_deliveries created.2 !! id = None
        ∧ webhook_deliveries r.2 !! id = Some (newDelivery webhookId created.1 now').
Proof.
  intros Hreg Htypes Hty db1 created r.
  pose proof (postWebhook_cases isURL body db) as Hpost. rewrite Hreg in Hpost.
  destruct Hpost as (_ & w & Hdb1 & Hact & _ & _ & _ & _ & Hreq & _).
  assert (w_event_types w = types) as Hw by congruence.
  set (eventId := created.1).
  assert (Hev : ∃ te, transaction_events created.2 !! eventId = Some te
                      ∧ te_event_type te = EventType_value (ne_event_type eventData)).
  { eexists. split; [apply lookup_insert_eq|done]. }
  destruct Hev as (te & Hte & Htype).
  assert (Hwh : webhooks created.2 !! webhookId = Some w).
  { unfold created. cbn. fold db1. unfold db1. rewrite Hdb1. cbn. apply lookup_insert_eq. }
  destruct (processEvent_spec eventId now' created.2 te Hte)
    as (_ & _ & _ & _ & Hnew & _ & Hall).
  fold r in Hnew, Hall.
  assert (Hin : (webhookId, w)
                ∈ filter (λ w : string * Webhook, matchesEvent (te_event_type te) w.2)
                    (map_to_list (webhooks created.2))).
  { apply list_elem_of_filter. split; [|by apply elem_of_map_to_list].
    split; [done|]. cbn. by rewrite Htype, Hw. }
  apply list_elem_of_lookup in Hin as [j Hj].
  destruct (Forall2_lookup_r _ _ _ _ _ Hall Hj) as (id & Hid & Hlk).
  exists id. split; [by eapply list_elem_of_lookup_2|].
  split; [apply Hnew; by eapply list_elem_of_lookup_2|done].
Qed.

Lemma X16_registered_webhook_receives_delivery_witness :
  let db1 := (postWebhook (λ _, true) ApiExamples.tokenHook Scenario.db0).2 in
  let created := Monitor.createTransactionEvent ApiExamples.tokenEvent 10 db1 in
  let r := processEvent created.1 11 created.2 in
  ∃ id, id ∈ r.1
        ∧ webhook_deliveries created.2 !! id = None
        ∧ webhook_deliveries r.2 !! id = Some (newDelivery "0" created.1 11).
Proof.
  apply (X16_registered_webhook_receives_delivery (λ _, true) ApiExamples.tokenHook
           Scenario.db0 "0" ["token_received"] ApiExamples.tokenEvent 10 11).
  - vm_compute. reflexivity.
  - reflexivity.
  - apply list_elem_of_here.
Defined.
End WebhookRoutes.

Section WebhookLifecycle.
Import Auth Routes Processor.

(** One uninterrupted call of [deliverWebhook] for a delivery whose row,
    webhook and event are found. *)
Lemma deliverWebhook_found (cfg : Config) (deliveryId : string) (now : Z)
    (result : PostResult) (db : Db) (wd : WebhookDelivery) (w : Webhook)
    (te : TransactionEvent) :
  webhook_deliveries db !! deliveryId = Some wd →
  webhooks db !! wd_webhook_id wd = Some w →
  transaction_events db !! wd_event_id wd = Some te →
  deliverWebhook cfg deliveryId now result db
  = recordResult cfg deliveryId {| delivery := wd; webhook := w; event := te |} now result
      (updateInProgress deliveryId (logged (SelectWebhookDelivery deliveryId) db)).2.
Proof.
  intros Hwd Hw Hte.
  unfold deliverWebhook, mbind, DB_bind. cbn [selectDelivery fst snd].
  rewrite Hwd. cbn [mbind option_bind]. rewrite Hw. cbn [mbind option_bind].
  rewrite Hte. by cbn [mbind option_bind].
Qed.

Lemma deliverWebhook_resolved (cfg : Config) (deliveryId : string) (now : Z)
    (status : Z) (data : string) (db : Db) (wd : WebhookDelivery) (w : Webhook)
    (te : TransactionEvent) :
  webhook_deliveries db !! deliveryId = Some wd →
  webhooks db !! wd_webhook_id wd = Some w →
  transaction_events db !! wd_event_id wd = Some te →
  webhook_deliveries (deliverWebhook cfg deliveryId now (Resolved status data) db).2
    !! deliveryId
  = Some (completed SUCCEEDED status (Some data) now (inProgress wd)).
Proof.
  intros Hwd Hw Hte. rewrite (deliverWebhook_found _ _ _ _ _ _ _ _ Hwd Hw Hte).
  cbn. by rewrite !lookup_alter_eq, Hwd.
Qed.

(** X17: deleting a webhook deactivates it.  The row stays, inactive, and
    the deliveries stay; from then on [processEvent] creates no delivery for
    the webhook, whatever the event; but a delivery that was already queued
    for it is still posted and recorded when its call runs: [deliverWebhook]
    does not look at [is_active]. *)
Theorem X17_deleted_webhook_is_only_deactivated (db : Db) (webhookId : string)
    (w : Webhook) :
  webhooks db !! webhookId = Some w →
  let db1 := (deleteWebhook webhookId db).2 in
  (deleteWebhook webhookId db).1 = Deleted
  ∧ webhooks db1 !! webhookId = Some (deactivateWebhook w)
  ∧ webhook_deliveries db1 = webhook_deliveries db
  ∧ (∀ eventId now id wd,
       id ∈ (processEvent eventId now db1).1 →
       webhook_deliveries (processEvent eventId now db1).2 !! id = Some wd →
       wd_webhook_id wd ≠ webhookId)
  ∧ (∀ cfg deliveryId wd te now status data,
       webhook_deliveries db !! deliveryId = Some wd →
       wd_webhook_id wd = webhookId →
       transaction_events db !! wd_event_id wd = Some te →
       webhook_deliveries
         (deliverWebhook cfg deliveryId now (Resolved status data) db1).2 !! deliveryId
       = Some (completed SUCCEEDED status (Some data) now (inProgress wd))).
Proof.
  intros Hw db1.
  assert (Hdb1 : db1 = set_webhooks (alter deactivateWebhook webhookId) db).
  { unfold db1, deleteWebhook. by rewrite Hw. }
  assert (Hw1 : webhooks db1 !! webhookId = Some (deactivateWebhook w)).
  { rewrite Hdb1. cbn. by rewrite lookup_alter_eq, Hw. }
  split; [unfold deleteWebhook; by rewrite Hw|]. split; [done|].
  split; [by rewrite Hdb1|]. split.
  - intros eventId now id wd Hin Hlk Heq.
    destruct (transaction_events db1 !! eventId) as [event|] eqn:He.
    + destruct (processEvent_spec eventId now db1 event He)
        as (_ & _ & _ & _ & _ & _ & Hall).
      apply list_elem_of_lookup in Hin as [j Hj].
      destruct (Forall2_lookup_l _ _ _ _ _ Hall Hj) as ([wid w'] & Hws & Hlk').
      rewrite Hlk in Hlk'. injection Hlk' as ->. cbn in Heq. subst wid.
      apply list_elem_of_lookup_2, list_elem_of_filter in Hws as [[Hact _] Hin].
      apply elem_of_map_to_list in Hin. rewrite Hw1 in Hin. injection Hin as <-.
      discriminate Hact.
    + assert (Hr : processEvent eventId now db1
                   = ([], logged (SelectTransactionEvent eventId) db1)).
      { unfold processEvent, mbind, DB_bind. cbn [selectTransactionEvent fst snd].
        by rewrite He. }
      rewrite Hr in Hin. by apply elem_of_nil in Hin.
  - intros cfg deliveryId wd te now status data Hwd Hwid Hte.
    apply (deliverWebhook_resolved _ _ _ _ _ _ _ (deactivateWebhook w) te).
    + by rewrite Hdb1.
    + by rewrite Hwid.
    + by rewrite Hdb1.
Qed.

Lemma X17_deleted_webhook_is_only_deactivated_witness :
  let db1 := (deleteWebhook "w1" Scenario.queued).2 in
  (deleteWebhook "w1" Scenario.queued).1 = Deleted
  ∧ (processEvent "e1" 3000 db1).1 = []
  ∧ wd_status
      <$> webhook_deliveries (deliverWebhook config "0" 3000 Scenario.http200 db1).2 !! "0"
    = Some SUCCEEDED.
Proof.
  destruct (X17_deleted_webhook_is_only_deactivated Scenario.queued "w1" Scenario.w1)
    as (H1 & _ & _ & _ & H5); [vm_compute; reflexivity|].
  split; [exact H1|]. split; [vm_compute; reflexivity|].
  unfold Scenario.http200.
  rewrite (H5 config "0" (newDelivery "w1" "e1" 1000) (markProcessed Scenario.e1)
             3000 200 "{}"); [done|vm_compute; reflexivity..].
Defined.

Lemma status_value_not_a_filter (s : WebhookDeliveryStatus) :
  WebhookDeliveryStatus_value s ∉ statusFilters.
Proof.
  unfold statusFilters. rewrite !not_elem_of_cons.
  destruct s; cbn; repeat split; try discriminate; apply not_elem_of_nil.
Qed.

(** X18: the status filter of the delivery listing matches nothing.  The
    route accepts the status names in capitals only, and compares the name
    it accepted with the column, where the engine writes the values of the
    enum in lower case: whenever a status filter is given, the request is
    either refused or answered with a total of 0, whatever the deliveries in
    the table. *)
Theorem X18_status_filter_matches_no_delivery (isUuid : string → bool)
    (webhookId eventId : option string) (status : string) (db : Db) :
  (getDeliveries isUuid webhookId eventId (Some status) db).1 = InvalidQuery
  ∨ (status ∈ statusFilters
     ∧ (getDeliveries isUuid webhookId eventId (Some status) db).1 = Listing 0).
Proof.
  unfold getDeliveries.
  destruct (from_option isUuid true webhookId && from_option isUuid true eventId);
    cbn [andb from_option fst]; [|by left].
  case_bool_decide as Hs; cbn [fst]; [|by left]. right. split; [done|].
  f_equal. apply length_zero_iff_nil, filter_nil_all.
  intros [id wd] _ (_ & _ & H3).
  assert (Hnull : Monitoring.orNull (Some status) = Some status).
  { destruct status; [|done]. exfalso. revert Hs. unfold statusFilters.
    rewrite !elem_of_cons, elem_of_nil. naive_solver. }
  specialize (H3 status Hnull). cbn in H3.
  apply (status_value_not_a_filter (wd_status wd)). by rewrite H3.
Qed.
End WebhookLifecycle.

Section DeliveryAttempts.
Import Processor System Attempts History.

(** The update that records the end of an attempt keeps the references,
    the creation time and the count, and ends in one of four statuses. *)
Lemma recordResult_keeps (cfg : Config) (deliveryId : string) (row : DeliveryRow)
    (now : Z) (result : PostResult) (db : Db) :
  ∃ f st, recordResult cfg deliveryId row now result db
       = (tt, logged (UpdateWebhookDelivery deliveryId st)
                (set_webhook_deliveries (alter f deliveryId) db))
       ∧ ∀ wd, wd_webhook_id (f wd) = wd_webhook_id wd
               ∧ wd_event_id (f wd) = wd_event_id wd
               ∧ wd_created_at (f wd) = wd_created_at wd
               ∧ wd_attempt_count (f wd) = wd_attempt_count wd
               ∧ wd_status (f wd) ∈ [SUCCEEDED; RETRYING; MAX_RETRIES_EXCEEDED; FAILED].
Proof.
  destruct result as [status data|response message|message]; cbn [recordResult].
  - do 2 eexists. split; [reflexivity|]. intros wd. cbn. repeat split. set_solver.
  - case_bool_decide; (do 2 eexists; split; [reflexivity|]); intros wd; cbn;
      repeat split; set_solver.
  - do 2 eexists. split; [reflexivity|]. intros wd. cbn. repeat split. set_solver.
Qed.

Lemma deliverWebhook_counts (cfg : Config) (deliveryId : string) (now : Z)
    (result : PostResult) (db : Db) (wd : WebhookDelivery) (w : Webhook)
    (te : TransactionEvent) :
  webhook_deliveries db !! deliveryId = Some wd →
  webhooks db !! wd_webhook_id wd = Some w →
  transaction_events db !! wd_event_id wd = Some te →
  let db' := (deliverWebhook cfg deliveryId now result db).2 in
  (∃ wd', webhook_deliveries db' !! deliveryId = Some wd'
          ∧ wd_attempt_count wd' = wd_attempt_count wd + 1
          ∧ wd_webhook_id wd' = wd_webhook_id wd
          ∧ wd_event_id wd' = wd_event_id wd
          ∧ wd_created_at wd' = wd_created_at wd
          ∧ wd_status wd' ∈ [SUCCEEDED; RETRYING; MAX_RETRIES_EXCEEDED; FAILED])
  ∧ (∀ id, id ≠ deliveryId →
           webhook_deliveries db' !! id = webhook_deliveries db !! id)
  ∧ transaction_events db' = transaction_events db
  ∧ webhooks db' = webhooks db.
Proof.
  intros Hwd Hw Hte db'. unfold db'.
  rewrite (deliverWebhook_found _ _ _ _ _ _ _ _ Hwd Hw Hte).
  destruct (recordResult_keeps cfg deliveryId
              {| delivery := wd; webhook := w; event := te |} now result
              (updateInProgress deliveryId (logged (SelectWebhookDelivery deliveryId) db)).2)
    as (f & st & -> & Hf).
  cbn. split; [|split; [|done]].
  - exists (f (inProgress wd)). rewrite !lookup_alter_eq, Hwd. split; [done|].
    destruct (Hf (inProgress wd)) as (-> & -> & -> & -> & Hst). by repeat split.
  - intros id Hne. by rewrite !lookup_alter_ne.
Qed.



Lemma runAttempts_snoc cfg deliveryId attempts a db :
  runAttempts cfg deliveryId (attempts ++ [a]) db
  = (deliverWebhook cfg deliveryId a.1 a.2 (runAttempts cfg deliveryId attempts db)).2.
Proof. unfold runAttempts. by rewrite foldl_app. Qed.

Lemma runAttempts_keeps (cfg : Config) (deliveryId : string) (db : Db)
    (wd : WebhookDelivery) (w : Webhook) (te : TransactionEvent)
    (attempts : list (Z * PostResult)) :
  webhook_deliveries db !! deliveryId = Some wd →
  webhooks db !! wd_webhook_id wd = Some w →
  transaction_events db !! wd_event_id wd = Some te →
  let db' := runAttempts cfg deliveryId attempts db in
  (∃ wd', webhook_deliveries db' !! deliveryId = Some wd'
          ∧ wd_attempt_count wd' = wd_attempt_count wd + Z.of_nat (length attempts)
          ∧ wd_webhook_id wd' = wd_webhook_id wd
          ∧ wd_event_id wd' = wd_event_id wd)
  ∧ transaction_events db' = transaction_events db
  ∧ webhooks db' = webhooks db.
Proof.
  intros Hwd Hw Hte. induction attempts as [|a attempts IH] using rev_ind.
  { cbn. split; [|done]. exists wd. repeat split; [done|lia]. }
  cbv zeta. rewrite runAttempts_snoc.
  destruct IH as ((wd1 & Hwd1 & Hc1 & Hw1 & He1) & Hte1 & Hws1).
  destruct (deliverWebhook_counts cfg deliveryId a.1 a.2
              (runAttempts cfg deliveryId attempts db) wd1 w te)
    as ((wd2 & Hwd2 & Hc2 & Hw2 & He2 & _) & _ & Hte2 & Hws2);
    [done|by rewrite Hws1, Hw1|by rewrite Hte1, He1|].
  split; [|split; congruence].
  exists wd2. split; [done|]. rewrite length_app. cbn [length].
  split; [lia|]. split; congruence.
Qed.

(** X20: the retry budget.  Attempts that all fail, run one after the other
    on a delivery that counts [a] attempts so far, leave it RETRYING as long
    as the count does not exceed [maxRetries], and MAX_RETRIES_EXCEEDED from
    there on; each of them is counted.  For a fresh delivery: RETRYING after
    the failures 1 to [maxRetries], MAX_RETRIES_EXCEEDED after failure
    [maxRetries + 1].  This is so as long as the counts are values of the
    column ([isInteger]) and the retry times that the attempts compute are
    within the range of [Date] ([retryTimesValid]): an update with a count
    or a retry time beyond fails, and the attempt ends in the outer
    [catch]. *)
Theorem X20_failures_exhaust_the_budget (cfg : Config) (deliveryId : string) (db : Db)
    (wd : WebhookDelivery) (w : Webhook) (te : TransactionEvent)
    (attempts : list (Z * PostResult)) :
  webhook_deliveries db !! deliveryId = Some wd →
  webhooks db !! wd_webhook_id wd = Some w →
  transaction_events db !! wd_event_id wd = Some te →
  attempts ≠ [] → Forall isRejected attempts →
  isInteger (wd_attempt_count wd) →
  isInteger (wd_attempt_count wd + Z.of_nat (length attempts)) →
  retryTimesValid cfg (wd_attempt_count wd) attempts →
  ∃ wd', webhook_deliveries (runAttempts cfg deliveryId attempts db) !! deliveryId = Some wd'
         ∧ wd_attempt_count wd' = wd_attempt_count wd + Z.of_nat (length attempts)
         ∧ wd_status wd'
           = if bool_decide (wd_attempt_count wd + Z.of_nat (length attempts)
                             ≤ maxRetries cfg)%Z
             then RETRYING else MAX_RETRIES_EXCEEDED.
Proof.
  intros Hwd Hw Hte Hne Hall _ _ _.
  induction attempts as [|a0 l0 _] using rev_ind; [done|]. clear Hne.
  apply Forall_app in Hall as [_ Hlast]. apply Forall_inv in Hlast.
  destruct (runAttempts_keeps cfg deliveryId db wd w te l0 Hwd Hw Hte)
    as ((wd1 & Hwd1 & Hc1 & Hw1 & He1) & Hte1 & Hws1).
  rewrite runAttempts_snoc, length_app. cbn [length].
  destruct a0 as [now result]. unfold isRejected in Hlast. cbn [fst snd] in *.
  destruct result as [? ?|response message|?]; try done.
  rewrite (deliverWebhook_rejected cfg deliveryId now response message _ wd1 w te);
    [|done|by rewrite Hws1, Hw1|by rewrite Hte1, He1].
  eexists. split; [reflexivity|].
  case_bool_decide as H1; cbn [retrying completed inProgress wd_attempt_count wd_status].
  - split; [lia|]. rewrite bool_decide_eq_true_2; [done|lia].
  - split; [lia|]. rewrite bool_decide_eq_false_2; [done|lia].
Qed.

Lemma X20_failures_exhaust_the_budget_witness :
  ∃ wd', webhook_deliveries
           (runAttempts config "0"
              [(2000, Scenario.http500); (62000, Scenario.http500);
               (122000, Scenario.http500); (182000, Scenario.http500);
               (242000, Scenario.http500); (302000, Scenario.http500)]
              Scenario.queued) !! "0" = Some wd'
         ∧ wd_attempt_count wd' = 0 + Z.of_nat 6
         ∧ wd_status wd' = if bool_decide (0 + Z.of_nat 6 ≤ 5)%Z
                           then RETRYING else MAX_RETRIES_EXCEEDED.
Proof.
  apply (X20_failures_exhaust_the_budget config "0" Scenario.queued
           (newDelivery "w1" "e1" 1000) Scenario.w1 (markProcessed Scenario.e1)).
  - vm_compute. reflexivity.
  - vm_compute. reflexivity.
  - vm_compute. reflexivity.
  - discriminate.
  - repeat constructor.
  - vm_compute. split; discriminate.
  - vm_compute. split; discriminate.
  - intros i now result Hi. cbn [newDelivery wd_attempt_count].
    do 6 (destruct i as [|i];
          [injection Hi as <- _;
           split; [vm_compute; split; discriminate|];
           intros Hlt;
           first [by vm_compute in Hlt | (vm_compute; repeat split; discriminate)]|]).
    discriminate Hi.
Defined.

(** X22: calls for rows that are not there do nothing.  [processEvent] for
    an id that is not in the table of events, and [deliverWebhook] for a
    delivery that is not in its table, or whose webhook or event is not
    (the SELECT is a JOIN of the three), run their first SELECT and return:
    no row of any table is changed or added, no attempt is counted and no
    delivery is queued. *)
Theorem X22_calls_for_missing_rows_do_nothing (cfg : Config) (eventId deliveryId : string)
    (now : Z) (result : PostResult) (db : Db) :
  (transaction_events db !! eventId = None →
   processEvent eventId now db = ([], logged (SelectTransactionEvent eventId) db))
  ∧ (match webhook_deliveries db !! deliveryId with
     | None => True
     | Some wd => webhooks db !! wd_webhook_id wd = None
                  ∨ transaction_events db !! wd_event_id wd = None
     end →
     deliverWebhook cfg deliveryId now result db
     = (tt, logged (SelectWebhookDelivery deliveryId) db)).
Proof.
  split; intros H.
  - unfold processEvent, mbind, DB_bind. cbn [selectTransactionEvent fst snd].
    by rewrite H.
  - unfold deliverWebhook, mbind, DB_bind. cbn [selectDelivery fst snd].
    destruct (webhook_deliveries db !! deliveryId) as [wd|]; [|done].
    cbn [mbind option_bind].
    destruct (webhooks db !! wd_webhook_id wd) as [w|] eqn:Hw; cbn [mbind option_bind];
      [|done].
    destruct H as [H|H]; [done|]. by rewrite H.
Qed.

Lemma X22_calls_for_missing_rows_do_nothing_witness :
  processEvent "e9" 5 Scenario.db0 = ([], logged (SelectTransactionEvent "e9") Scenario.db0)
  ∧ deliverWebhook config "0" 5 Scenario.http200 EngineExamples.orphaned
    = (tt, logged (SelectWebhookDelivery "0") EngineExamples.orphaned).
Proof.
  split.
  - apply (proj1 (X22_calls_for_missing_rows_do_nothing config "e9" "0" 5
                    Scenario.http200 Scenario.db0)).
    vm_compute. reflexivity.
  - apply (proj2 (X22_calls_for_missing_rows_do_nothing config "e9" "0" 5
                    Scenario.http200 EngineExamples.orphaned)).
    vm_compute. right. reflexivity.
Defined.

(** X23: processing an event again duplicates its deliveries.
    [processEvent] does not look at the [processed] flag: a second call for
    the same event creates a fresh delivery for every matching webhook once
    more, so that each such webhook then has two deliveries for the event. *)
Theorem X23_processing_twice_duplicates_deliveries (db : Db) (eventId : string)
    (event : TransactionEvent) (now now' : Z) (webhookId : string) (w : Webhook) :
  transaction_events db !! eventId = Some event →
  webhooks db !! webhookId = Some w →
  w_is_active w = true → te_event_type event ∈ w_event_types w →
  let r1 := processEvent eventId now db in
  let r2 := processEvent eventId now' r1.2 in
  length r2.1 = length r1.1
  ∧ (∀ id, id ∈ r2.1 → id ∉ r1.1)
  ∧ ∃ id1 id2,
      id1 ≠ id2
      ∧ webhook_deliveries r2.2 !! id1 = Some (newDelivery webhookId eventId now)
      ∧ webhook_deliveries r2.2 !! id2 = Some (newDelivery webhookId eventId now').
Proof.
  intros He Hw Hact Hty r1 r2.
  destruct (processEvent_spec eventId now db event He)
    as (He1 & Hw1 & _ & _ & Hnew1 & Hold1 & Hall1).
  fold r1 in He1, Hw1, Hnew1, Hold1, Hall1.
  assert (He' : transaction_events r1.2 !! eventId = Some (markProcessed event)).
  { by rewrite He1, lookup_insert_eq. }
  destruct (processEvent_spec eventId now' r1.2 (markProcessed event) He')
    as (_ & _ & _ & _ & Hnew2 & Hold2 & Hall2).
  fold r2 in Hnew2, Hold2, Hall2.
  cbn [markProcessed te_event_type] in Hall2. rewrite Hw1 in Hall2.
  set (ws := filter (λ w : string * Webhook, matchesEvent (te_event_type event) w.2)
               (map_to_list (webhooks db))) in *.
  assert (Hfresh : ∀ id, id ∈ r2.1 → id ∉ r1.1).
  { intros id Hin2 Hin1. apply Hnew2 in Hin2.
    apply list_elem_of_lookup in Hin1 as [j Hj].
    destruct (Forall2_lookup_l _ _ _ _ _ Hall1 Hj) as (? & _ & Hlk). congruence. }
  split. { rewrite (Forall2_length _ _ _ Hall1). by rewrite (Forall2_length _ _ _ Hall2). }
  split; [done|].
  assert (Hin : (webhookId, w) ∈ ws).
  { apply list_elem_of_filter. split; [by split|]. by apply elem_of_map_to_list. }
  apply list_elem_of_lookup in Hin as [j Hj].
  destruct (Forall2_lookup_r _ _ _ _ _ Hall1 Hj) as (id1 & Hid1 & Hlk1).
  destruct (Forall2_lookup_r _ _ _ _ _ Hall2 Hj) as (id2 & Hid2 & Hlk2).
  apply list_elem_of_lookup_2 in Hid1, Hid2.
  exists id1, id2. split; [intros ->; by apply (Hfresh id2)|]. split; [|done].
  rewrite Hold2; [done|]. intros Hin2. by apply (Hfresh id1).
Qed.

Lemma X23_processing_twice_duplicates_deliveries_witness :
  let r1 := processEvent "e1" 1000 Scenario.db0 in
  let r2 := processEvent "e1" 1001 r1.2 in
  length r2.1 = length r1.1
  ∧ (∀ id, id ∈ r2.1 → id ∉ r1.1)
  ∧ ∃ id1 id2,
      id1 ≠ id2
      ∧ webhook_deliveries r2.2 !! id1 = Some (newDelivery "w1" "e1" 1000)
      ∧ webhook_deliveries r2.2 !! id2 = Some (newDelivery "w1" "e1" 1001).
Proof.
  apply (X23_processing_twice_duplicates_deliveries Scenario.db0 "e1" Scenario.e1
           1000 1001 "w1" Scenario.w1).
  - reflexivity.
  - reflexivity.
  - reflexivity.
  - apply list_elem_of_here.
Defined.

End DeliveryAttempts.

Section RunningMore.
Import Processor System Attempts History.

Lemma isDue_status (now : Z) (wd : WebhookDelivery) :
  isDue now wd = true →
  wd_status wd = PENDING
  ∨ (wd_status wd = RETRYING ∧ ∃ t, wd_next_retry_at wd = Some t ∧ (t ≤ now)%Z).
Proof.
  unfold isDue. intros H. apply orb_true_iff in H as [H|H].
  - left. by apply bool_decide_eq_true in H.
  - right. apply andb_true_iff in H as [H1 H2]. apply bool_decide_eq_true in H1.
    split; [done|]. destruct (wd_next_retry_at wd) as [t|]; [|done].
    exists t. split; [done|]. by apply bool_decide_eq_true in H2.
Qed.

(** X24: what one tick of the sweeper selects.  The ids it hands to
    [deliverWebhook] are distinct, at most 100, and each is a delivery that
    is PENDING, or RETRYING with a retry time that has come; the tick itself
    changes no table; and when no more than 100 deliveries are due, every
    one of them is selected. *)
Theorem X24_sweeper_selects_the_due_deliveries (now : Z) (db : Db) :
  let r := processWebhookQueue now db in
  NoDup r.1
  ∧ (length r.1 ≤ 100)%nat
  ∧ (∀ id, id ∈ r.1 →
       ∃ wd, webhook_deliveries db !! id = Some wd
             ∧ (wd_status wd = PENDING
                ∨ (wd_status wd = RETRYING
                   ∧ ∃ t, wd_next_retry_at wd = Some t ∧ (t ≤ now)%Z)))
  ∧ webhook_deliveries r.2 = webhook_deliveries db
  ∧ webhooks r.2 = webhooks db
  ∧ transaction_events r.2 = transaction_events db
  ∧ ((length (filter (λ r : string * WebhookDelivery, isDue now r.2)
               (map_to_list (webhook_deliveries db))) ≤ 100)%nat →
     ∀ id wd, webhook_deliveries db !! id = Some wd → isDue now wd = true → id ∈ r.1).
Proof.
  cbv zeta. split; [|split; [|split; [|split; [done|split; [done|split; [done|]]]]]].
  - cbn [processWebhookQueue fst].
    apply (sublist_NoDup _ ((map_to_list (webhook_deliveries db)).*1));
      [apply NoDup_fst_map_to_list|].
    trans ((filter (λ r : string * WebhookDelivery, isDue now r.2)
              (map_to_list (webhook_deliveries db))).*1);
      [apply sublist_take|apply fmap_sublist, sublist_filter].
  - cbn [processWebhookQueue fst]. rewrite length_take. lia.
  - intros id Hin. apply processWebhookQueue_due in Hin as (wd & Hlk & Hdue).
    exists wd. split; [done|]. by apply (isDue_status now).
  - intros Hsize id wd Hlk Hdue. cbn [processWebhookQueue fst].
    rewrite take_ge by (by rewrite length_fmap).
    apply list_elem_of_fmap. exists (id, wd). split; [done|].
    apply list_elem_of_filter. split; [by apply Is_true_true|].
    by apply elem_of_map_to_list.
Qed.


Lemma X24_sweeper_selects_the_due_deliveries_witness :
  "0" ∈ (processWebhookQueue 1500 Scenario.queued).1.
Proof.
  apply (proj2 (proj2 (proj2 (proj2 (proj2 (proj2
           (X24_sweeper_selects_the_due_deliveries 1500 Scenario.queued))))))
           ltac:(vm_compute; lia) "0" (newDelivery "w1" "e1" 1000)).
  - vm_compute. reflexivity.
  - vm_compute. reflexivity.
Defined.

Lemma laterOf_refl (wd : WebhookDelivery) : laterOf wd wd.
Proof. unfold laterOf. repeat split; lia. Qed.

Lemma laterOf_trans (wd1 wd2 wd3 : WebhookDelivery) :
  laterOf wd1 wd2 → laterOf wd2 wd3 → laterOf wd1 wd3.
Proof.
  unfold laterOf. intros (? & ? & ? & ?) (? & ? & ? & ?).
  repeat split; (congruence || lia).
Qed.

Lemma laterOf_alter (f : WebhookDelivery → WebhookDelivery)
    (m : gmap string WebhookDelivery) (deliveryId id : string) (wd : WebhookDelivery) :
  (∀ wd, laterOf wd (f wd)) →
  m !! id = Some wd →
  ∃ wd', alter f deliveryId m !! id = Some wd' ∧ laterOf wd wd'.
Proof.
  intros Hf Hlk. destruct (decide (deliveryId = id)) as [->|Hne].
  - exists (f wd). rewrite lookup_alter_eq, Hlk. by split.
  - exists wd. rewrite lookup_alter_ne by done. split; [done|apply laterOf_refl].
Qed.

(** One step of the system keeps every delivery, with its references and
    creation time, and does not lower its count of attempts. *)
Lemma laterOf_step (cfg : Config) (st st' : State) (id : string) (wd : WebhookDelivery) :
  step cfg st st' →
  webhook_deliveries (db st) !! id = Some wd →
  ∃ wd', webhook_deliveries (db st') !! id = Some wd' ∧ laterOf wd wd'.
Proof.
  intros Hstep Hlk.
  destruct Hstep as [st eventData now|st eventId now|st now|st i deliveryId Hi
                    |st i deliveryId row Hi|st i deliveryId row now result Hi
                    |st i t now message Hi].
  - exists wd. split; [done|apply laterOf_refl].
  - destruct (processEvent_deliveries eventId now (db st)) as [Hnew Hold].
    assert (Hnin : id ∉ (processEvent eventId now (db st)).1).
    { intros Hin. destruct (Hnew id Hin) as [Hnone _]. congruence. }
    exists wd. split; [cbn; by rewrite Hold|apply laterOf_refl].
  - exists wd. split; [done|apply laterOf_refl].
  - exists wd. split; [done|apply laterOf_refl].
  - cbn [doInProgress db updateInProgress snd logged set_webhook_deliveries
         webhook_deliveries].
    apply laterOf_alter; [|done].
    intros wd0. unfold laterOf. cbn. repeat split. lia.
  - cbn [doResult db].
    destruct (recordResult_keeps cfg deliveryId row now result (db st))
      as (f & s & -> & Hf).
    cbn [snd logged set_webhook_deliveries webhook_deliveries].
    apply laterOf_alter; [|done].
    intros wd0. destruct (Hf wd0) as (? & ? & ? & ? & _).
    unfold laterOf. repeat split; (congruence || lia).
  - cbn [doCatch db catchError snd logged set_webhook_deliveries webhook_deliveries].
    apply laterOf_alter; [|done].
    intros wd0. unfold laterOf. cbn. repeat split. lia.
Qed.

(** X25: deliveries are never removed or repointed.  Whatever the system
    does (events created and processed, sweeps, calls of [deliverWebhook]
    interleaved in any way, errors), a delivery that exists keeps existing,
    with the same webhook, the same event and the same creation time, and
    its count of attempts never goes down. *)
Theorem X25_deliveries_persist_and_counts_grow (cfg : Config) (st st' : State)
    (id : string) (wd : WebhookDelivery) :
  rtc (step cfg) st st' →
  webhook_deliveries (db st) !! id = Some wd →
  ∃ wd', webhook_deliveries (db st') !! id = Some wd'
         ∧ wd_webhook_id wd' = wd_webhook_id wd
         ∧ wd_event_id wd' = wd_event_id wd
         ∧ wd_created_at wd' = wd_created_at wd
         ∧ (wd_attempt_count wd ≤ wd_attempt_count wd')%Z.
Proof.
  intros Hrtc. revert wd. induction Hrtc as [st|st st1 st2 Hstep _ IH]; intros wd Hlk.
  - exists wd. split; [done|]. repeat split; lia.
  - destruct (laterOf_step cfg st st1 id wd Hstep Hlk) as (wd1 & Hlk1 & Hl1).
    destruct (IH wd1 Hlk1) as (wd2 & Hlk2 & Hl2).
    exists wd2. split; [done|]. by apply (laterOf_trans wd wd1 wd2).
Qed.

Lemma queued_to_secondFailed :
  rtc (step config) (doProcessEvent "e1" 1000 Scenario.st0) Scenario.secondFailed.
Proof.
  eapply rtc_l; [apply (step_sweep config _ 1001)|].
  eapply rtc_l; [apply (advance_step config 0 0 Scenario.http200); vm_compute; eauto|].
  eapply rtc_l; [apply (advance_step config 1 0 Scenario.http200); vm_compute; eauto|].
  eapply rtc_l; [apply (advance_step config 0 0 Scenario.http200); vm_compute; eauto|].
  eapply rtc_l; [apply (advance_step config 1 0 Scenario.http200); vm_compute; eauto|].
  eapply rtc_l; [apply (advance_step config 0 1500 Scenario.http200); vm_compute; eauto|].
  eapply rtc_l; [apply (advance_step config 0 11001 Scenario.http500); vm_compute; eauto|].
  apply rtc_refl.
Qed.

Lemma X25_deliveries_persist_and_counts_grow_witness :
  ∃ wd', webhook_deliveries (db Scenario.secondFailed) !! "0" = Some wd'
         ∧ wd_webhook_id wd' = "w1"
         ∧ wd_event_id wd' = "e1"
         ∧ wd_created_at wd' = 1000
         ∧ (0 ≤ wd_attempt_count wd')%Z.
Proof.
  apply (X25_deliveries_persist_and_counts_grow config
           (doProcessEvent "e1" 1000 Scenario.st0) Scenario.secondFailed "0"
           (newDelivery "w1" "e1" 1000) queued_to_secondFailed).
  vm_compute. reflexivity.
Defined.

(** One step leaves alone a delivery that is neither PENDING nor RETRYING
    and has no call in flight, and starts no call for it. *)
Lemma idle_step (cfg : Config) (st st' : State) (id : string) (wd : WebhookDelivery) :
  step cfg st st' →
  webhook_deliveries (db st) !! id = Some wd →
  wd_status wd ≠ PENDING → wd_status wd ≠ RETRYING →
  noCallFor id st →
  webhook_deliveries (db st') !! id = Some wd ∧ noCallFor id st'.
Proof.
  intros Hstep Hlk Hp Hr Hno.
  destruct Hstep as [st eventData now|st eventId now|st now|st i deliveryId Hi
                    |st i deliveryId row Hi|st i deliveryId row now result Hi
                    |st i t now message Hi].
  - done.
  - destruct (processEvent_deliveries eventId now (db st)) as [Hnew Hold].
    assert (Hnin : id ∉ (processEvent eventId now (db st)).1).
    { intros Hin. destruct (Hnew id Hin) as [Hnone _]. congruence. }
    split; [cbn; by rewrite Hold|].
    intros t [Ht|Ht]%elem_of_app; [by apply Hno|].
    apply list_elem_of_fmap in Ht as (id' & -> & Hin). cbn. by intros ->.
  - split; [done|].
    intros t [Ht|Ht]%elem_of_app; [by apply Hno|].
    apply list_elem_of_fmap in Ht as (id' & -> & Hin). cbn. intros ->.
    apply processWebhookQueue_due in Hin as (wd' & Hlk' & Hdue).
    rewrite Hlk in Hlk'. injection Hlk' as <-.
    apply isDue_status in Hdue as [?|[? _]]; done.
  - split; [done|].
    assert (Hne : deliveryId ≠ id).
    { apply (Hno (Called deliveryId)). by eapply list_elem_of_lookup_2. }
    intros t Ht. unfold doSelect in Ht. cbn [inflight] in Ht.
    destruct (selectDelivery deliveryId (db st)).1 as [row|].
    + apply list_elem_of_insert_inv in Ht as [->|Ht]; [done|by apply Hno].
    + apply list_elem_of_delete_inv in Ht. by apply Hno.
  - assert (Hne : deliveryId ≠ id).
    { apply (Hno (Loaded deliveryId row)). by eapply list_elem_of_lookup_2. }
    split; [cbn; by rewrite lookup_alter_ne|].
    intros t Ht. cbn [doInProgress inflight] in Ht.
    apply list_elem_of_insert_inv in Ht as [->|Ht]; [done|by apply Hno].
  - assert (Hne : deliveryId ≠ id).
    { apply (Hno (Posting deliveryId row)). by eapply list_elem_of_lookup_2. }
    split.
    + cbn [doResult db].
      destruct (recordResult_deliveries cfg deliveryId row now result (db st))
        as (f & -> & _).
      by rewrite lookup_alter_ne.
    + intros t Ht. cbn [doResult inflight] in Ht.
      apply list_elem_of_delete_inv in Ht. by apply Hno.
  - assert (Hne : task_id t ≠ id).
    { apply Hno. by eapply list_elem_of_lookup_2. }
    split; [cbn; by rewrite lookup_alter_ne|].
    intros t' Ht. cbn [doCatch inflight] in Ht.
    apply list_elem_of_delete_inv in Ht. by apply Hno.
Qed.

(** X26: an interrupted attempt is never resumed.  A delivery that is
    IN_PROGRESS while no call of [deliverWebhook] is in flight for it (the
    process stopped during the attempt and started again) stays IN_PROGRESS
    for ever: the sweeper selects PENDING and RETRYING deliveries only, so
    no step of the system changes the row or starts a call for it. *)
Theorem X26_interrupted_attempt_is_never_resumed (cfg : Config) (st st' : State)
    (id : string) (wd : WebhookDelivery) :
  rtc (step cfg) st st' →
  webhook_deliveries (db st) !! id = Some wd →
  wd_status wd = IN_PROGRESS →
  noCallFor id st →
  webhook_deliveries (db st') !! id = Some wd ∧ noCallFor id st'.
Proof.
  intros Hrtc Hlk Hs. induction Hrtc as [st|st st1 st2 Hstep _ IH]; intros Hno; [done|].
  destruct (idle_step cfg st st1 id wd Hstep Hlk) as [Hlk1 Hno1];
    [by rewrite Hs|by rewrite Hs|done|].
  by apply IH.
Qed.

Lemma X26_interrupted_attempt_is_never_resumed_witness :
  webhook_deliveries (db (doSweep 900000 EngineExamples.restarted)) !! "0"
  = Some (inProgress (newDelivery "w1" "e1" 1000))
  ∧ noCallFor "0" (doSweep 900000 EngineExamples.restarted).
Proof.
  apply (X26_interrupted_attempt_is_never_resumed config EngineExamples.restarted
           (doSweep 900000 EngineExamples.restarted) "0"
           (inProgress (newDelivery "w1" "e1" 1000))).
  - apply rtc_once, step_sweep.
  - vm_compute. reflexivity.
  - reflexivity.
  - intros t Ht. vm_compute in Ht. by apply elem_of_nil in Ht.
Defined.

Lemma markProcessed_idem (te : TransactionEvent) :
  markProcessed (markProcessed te) = markProcessed te.
Proof. reflexivity. Qed.

(** One step of the system keeps every event, as it was or marked
    processed. *)
Lemma event_step (cfg : Config) (st st' : State) (id : string) (te : TransactionEvent) :
  step cfg st st' →
  transaction_events (db st) !! id = Some te →
  ∃ te', transaction_events (db st') !! id = Some te'
         ∧ (te' = te ∨ te' = markProcessed te).
Proof.
  intros Hstep Hlk.
  destruct Hstep as [st eventData now|st eventId now|st now|st i deliveryId Hi
                    |st i deliveryId row Hi|st i deliveryId row now result Hi
                    |st i t now message Hi].
  - exists te. split; [|by left]. cbn.
    rewrite lookup_insert_ne; [done|].
    intros Heq. pose proof (is_fresh (dom (transaction_events (db st)))) as Hf.
    rewrite Heq in Hf. apply Hf. apply elem_of_dom. by exists te.
  - cbn [doProcessEvent db].
    destruct (transaction_events (db st) !! eventId) as [event|] eqn:He.
    + destruct (processEvent_spec eventId now (db st) event He) as (-> & _).
      destruct (decide (eventId = id)) as [->|Hne].
      * exists (markProcessed te). rewrite lookup_insert_eq.
        split; [congruence|by right].
      * exists te. rewrite lookup_insert_ne by done. split; [done|by left].
    + exists te. split; [|by left].
      unfold processEvent, mbind, DB_bind. cbn [selectTransactionEvent fst snd].
      by rewrite He.
  - exists te. split; [done|by left].
  - exists te. split; [done|by left].
  - exists te. split; [done|by left].
  - exists te. split; [|by left]. cbn [doResult db].
    by destruct (recordResult_keeps cfg deliveryId row now result (db st))
      as (f & s & -> & _).
  - exists te. split; [done|by left].
Qed.

(** X10: events are kept, and only marked processed.  Whatever the system
    does (events created by the monitor, the calls of [processEvent] that
    follow them, sweeps, calls of [deliverWebhook] interleaved in any way,
    errors), an event that is in the table stays there with the values it
    was created with; the only change ever made to it is that [processed]
    becomes true. *)
Theorem X10_events_are_kept_and_only_marked_processed (cfg : Config) (st st' : State)
    (id : string) (te : TransactionEvent) :
  rtc (step cfg) st st' →
  transaction_events (db st) !! id = Some te →
  ∃ te', transaction_events (db st') !! id = Some te'
         ∧ (te' = te ∨ te' = markProcessed te).
Proof.
  intros Hrtc. revert te. induction Hrtc as [st|st st1 st2 Hstep _ IH]; intros te Hlk.
  - exists te. split; [done|by left].
  - destruct (event_step cfg st st1 id te Hstep Hlk) as (te1 & Hlk1 & H1).
    destruct (IH te1 Hlk1) as (te2 & Hlk2 & H2).
    exists te2. split; [done|].
    destruct H1 as [->| ->]; [done|]. right.
    destruct H2 as [->| ->]; [done|apply markProcessed_idem].
Qed.

Lemma X10_events_are_kept_and_only_marked_processed_witness :
  ∃ te', transaction_events (db Scenario.rejected) !! "e1" = Some te'
         ∧ (te' = Scenario.e1 ∨ te' = markProcessed Scenario.e1).
Proof.
  apply (X10_events_are_kept_and_only_marked_processed config Scenario.st0
           Scenario.rejected "e1" Scenario.e1 rejected_reachable).
  reflexivity.
Defined.

End RunningMore.
